(** * gitsum: the diff-filtering and command-synthesis engine

    A shallow embedding of the TypeScript sources of the gitsum command-line
    tool, and the properties of its four components: the command
    synthesizer and the status classifier (both inside
    [GitDiffChecker.checkDiff]), the diff-section filter
    ([GitDiffChecker.filterIgnoredFilesFromDiff]) and the output formatter
    ([GitDiffChecker.formatDiffOutput]).

    The repository holds two copies of the tool.  The current one is the
    file with the ignore filter, the submodule flag and the change counts;
    the older one, [src/cli/src/cli.ts], is embedded in [Module CliCopy]
    where it differs. *)

From Stdlib Require Import ZArith NArith String Ascii Bool Lia.
From Stdlib Require Import Numbers.DecimalString Numbers.DecimalPos.
From Equations Require Import Equations.
From Equations.Prop Require Import Logic.
From stdpp Require Import base option list numbers.

Set Default Proof Using "Type".
Local Open Scope N_scope.

(** ** JavaScript strings

    A JavaScript string is a sequence of UTF-16 code units.  The code
    units are kept as numbers, so that the character classes of the
    regular expression engine and of [parseInt] (which go beyond ASCII)
    are the ones of the language. *)

Module JS.

Definition char := N.
Definition str := list char.

(** An ASCII literal of the source, as code units. *)
Definition lit (s : string) : str :=
  List.map N_of_ascii (list_ascii_of_string s).

Definition LF : char := 10.

(** ECMAScript LineTerminator: LF, CR, LS, PS. *)
Definition isLineTerminator (c : char) : bool :=
  (c =? 10) || (c =? 13) || (c =? 8232) || (c =? 8233).

(** ECMAScript WhiteSpace: TAB, VT, FF, SP, NBSP, ZWNBSP and the space
    separators (category Zs). *)
Definition isWhiteSpace (c : char) : bool :=
  (c =? 9) || (c =? 11) || (c =? 12) || (c =? 32) || (c =? 160)
  || (c =? 5760) || ((8192 <=? c) && (c <=? 8202))
  || (c =? 8239) || (c =? 8287) || (c =? 12288) || (c =? 65279).

(** The class [\s] of a regular expression, and the characters that
    [parseInt] and [trim] strip: WhiteSpace and LineTerminator. *)
Definition isSpace (c : char) : bool := isWhiteSpace c || isLineTerminator c.

(** The class [.] of a regular expression without the [s] flag. *)
Definition isDot (c : char) : bool := negb (isLineTerminator c).

Fixpoint eqb (s t : str) : bool :=
  match s, t with
  | [], [] => true
  | c :: s', d :: t' => (c =? d) && eqb s' t'
  | _, _ => false
  end.

(** [s.startsWith(p)] *)
Fixpoint startsWith (s p : str) : bool :=
  match p with
  | [] => true
  | d :: p' =>
      match s with
      | [] => false
      | c :: s' => (c =? d) && startsWith s' p'
      end
  end.

(** The rest of [s] after the prefix [p], when [s] starts with it. *)
Fixpoint stripPrefix (p s : str) : option str :=
  match p with
  | [] => Some s
  | d :: p' =>
      match s with
      | [] => None
      | c :: s' => if c =? d then stripPrefix p' s' else None
      end
  end.

(** [s.includes(p)] *)
Fixpoint includes (s p : str) : bool :=
  startsWith s p ||
  match s with
  | [] => false
  | _ :: s' => includes s' p
  end.

(** [s.substring(a, b)] for [a <= b], and [s.substring(a)]; both clamp
    the indices to the length of [s]. *)
Definition substring (s : str) (a b : nat) : str := take (b - a) (drop a s).
Definition substringFrom (s : str) (a : nat) : str := drop a s.

(** [s.split("\n")]: never empty, the empty string gives one empty line. *)
Fixpoint split (s : str) : list str :=
  match s with
  | [] => [[]]
  | c :: s' =>
      if c =? LF then [] :: split s'
      else match split s' with
           | l :: ls => (c :: l) :: ls
           | [] => [[c]]
           end
  end.

(** [ls.join("\n")] *)
Fixpoint join (ls : list str) : str :=
  match ls with
  | [] => []
  | [l] => l
  | l :: ls' => l ++ LF :: join ls'
  end.

End JS.

Import JS.

(** ** The header pattern of the diff-section filter

    [line.match(/diff --git a\/(.+?)\s+b\/(.+?)$/)], written as the
    backtracking search of the regular expression engine: the pattern is
    tried at every start position from the left, a lazy group grows one
    unit at a time, the greedy [\s+] gives units back one at a time.  The
    result holds the two groups, [match[1]] and [match[2]]. *)

Module HeaderPattern.

Definition diffGitA : str := lit "diff --git a/".

(** [(.+?)$]: a lazy group followed by the end of the input.  After each
    unit the engine tests [$], which holds at the end of the line only. *)
Fixpoint lazyToEnd (r : str) : option str :=
  match r with
  | [] => None
  | c :: r' =>
      if isDot c then
        match r' with
        | [] => Some [c]
        | _ :: _ => cons c <$> lazyToEnd r'
        end
      else None
  end.

(** [b\/(.+?)$] *)
Definition destPart (r : str) : option str :=
  match stripPrefix (lit "b/") r with
  | Some r' => lazyToEnd r'
  | None => None
  end.

(** [\s*b\/(.+?)$] with a greedy star: first one more space, then the
    rest of the pattern. *)
Fixpoint spacesThenDest (r : str) : option str :=
  match r with
  | c :: r' =>
      if isSpace c then
        match spacesThenDest r' with
        | Some g => Some g
        | None => destPart r
        end
      else destPart r
  | [] => destPart r
  end.

(** [\s+b\/(.+?)$] *)
Definition spaces1ThenDest (r : str) : option str :=
  match r with
  | c :: r' => if isSpace c then spacesThenDest r' else None
  | [] => None
  end.

(** [(.+?)\s+b\/(.+?)$]: the first group is lazy, it takes one unit and
    tries the rest of the pattern before it takes another. *)
Fixpoint groups (r : str) : option (str * str) :=
  match r with
  | [] => None
  | c :: r' =>
      if isDot c then
        match spaces1ThenDest r' with
        | Some g2 => Some ([c], g2)
        | None =>
            match groups r' with
            | Some (g1, g2) => Some (c :: g1, g2)
            | None => None
            end
        end
      else None
  end.

(** The pattern anchored at the start of [s]. *)
Definition matchAt (s : str) : option (str * str) :=
  match stripPrefix diffGitA s with
  | Some r => groups r
  | None => None
  end.

(** The leftmost match in [s]. *)
Fixpoint matchHeader (s : str) : option (str * str) :=
  match matchAt s with
  | Some m => Some m
  | None =>
      match s with
      | [] => None
      | _ :: s' => matchHeader s'
      end
  end.

End HeaderPattern.

Import HeaderPattern.

Definition diffGit : str := lit "diff --git".
Definition devNull : str := lit "/dev/null".

(** ** The diff-section filter

    [GitDiffChecker.filterIgnoredFilesFromDiff].  [isPathIgnored] runs
    [git check-ignore] on a path; here it is an arbitrary predicate on
    paths, and the paths it is asked about are recorded in call order. *)

Section DiffSectionFilter.

Variable isPathIgnored : str -> bool.

Definition isFileHeader (line : str) : bool := startsWith line diffGit.

(** The inner loop
    [while (i < lines.length && !lines[i].startsWith("diff --git")) i++]:
    the value of [i] when it ends. *)
Equations? skipToNextHeader (lines : list str) (i : nat) : nat
  by wf (length lines - i)%nat lt :=
  skipToNextHeader lines i with inspect (lines !! i) := {
    | exist _ (Some line) Hi =>
        if negb (isFileHeader line) then skipToNextHeader lines (S i) else i
    | exist _ None _ => i
  }.
Proof.
  apply lookup_lt_Some in Hi. lia.
Qed.

(** The inner loop never moves the index back. *)
Lemma skipToNextHeader_ge lines i : (i <= skipToNextHeader lines i)%nat.
Proof.
  funelim (skipToNextHeader lines i).
  - destruct (negb (isFileHeader line)); lia.
  - lia.
Qed.

(** The variables of the loop: the index [i], the flag [skipCurrentFile],
    the array [filtered], and the paths handed to [isPathIgnored] so far. *)
Record LoopState := {
  idx : nat;
  skipCurrentFile : bool;
  filtered : list str;
  queried : list str
}.

(** The path of a section: [newPath !== "/dev/null" ? newPath : oldPath]. *)
Definition filePathOf (oldPath newPath : str) : str :=
  if negb (eqb newPath devNull) then newPath else oldPath.

(** One pass through the body of the [for] loop, at line [lines[i]], up
    to its [continue] or its end. *)
Definition iteration (lines : list str) (line : str) (st : LoopState) : LoopState :=
  let i := idx st in
  (* if (skipCurrentFile) continue; filtered.push(line); *)
  let finish skip asked :=
    if skip : bool then
      {| idx := i; skipCurrentFile := skip;
         filtered := filtered st; queried := asked |}
    else
      {| idx := i; skipCurrentFile := skip;
         filtered := filtered st ++ [line]; queried := asked |} in
  if isFileHeader line then
    match matchHeader line with
    | Some (oldPath, newPath) =>
        let filePath := filePathOf oldPath newPath in
        let skip := isPathIgnored filePath in
        let asked := queried st ++ [filePath] in
        if skip then
          (* i++; while (...) i++; i--; continue; *)
          {| idx := skipToNextHeader lines (S i) - 1; skipCurrentFile := skip;
             filtered := filtered st; queried := asked |}
        else finish skip asked
    | None => finish (skipCurrentFile st) (queried st)
    end
  else finish (skipCurrentFile st) (queried st).

(** The [i++] of the [for] loop. *)
Definition increment (st : LoopState) : LoopState :=
  {| idx := S (idx st); skipCurrentFile := skipCurrentFile st;
     filtered := filtered st; queried := queried st |}.

(** Nor does a pass through the body: the loop ends. *)
Lemma iteration_idx lines line st : (idx st <= idx (iteration lines line st))%nat.
Proof.
  unfold iteration.
  destruct (isFileHeader line); [destruct (matchHeader line) as [[o n]|]|];
    repeat match goal with |- context [if ?b then _ else _] => destruct b end;
    simpl; try lia.
  pose proof (skipToNextHeader_ge lines (S (idx st))). lia.
Qed.

(** [for (let i = 0; i < lines.length; i++) { ... }] from a given state. *)
Equations? filterLoop (lines : list str) (st : LoopState) : LoopState
  by wf (length lines - idx st)%nat lt :=
  filterLoop lines st with inspect (lines !! idx st) := {
    | exist _ (Some line) Hi => filterLoop lines (increment (iteration lines line st))
    | exist _ None _ => st
  }.
Proof.
  apply lookup_lt_Some in Hi.
  pose proof (iteration_idx lines line st). simpl. lia.
Qed.

Definition initialState : LoopState :=
  {| idx := 0; skipCurrentFile := false; filtered := []; queried := [] |}.

(** The lines that the loop keeps. *)
Definition filterLines (lines : list str) : list str :=
  filtered (filterLoop lines initialState).

Definition filterIgnoredFilesFromDiff (diff : str) : str :=
  join (filterLines (split diff)).

(** The paths on which [git check-ignore] is run while [diff] is filtered. *)
Definition ignoreQueries (diff : str) : list str :=
  queried (filterLoop (split diff) initialState).

End DiffSectionFilter.

(** ** Numbers

    The numbers of the program are the results of [parseInt]: [NaN], an
    infinity, or a double whose value is an integer.  [parseInt] rounds the
    integer it reads to the nearest double, and a template literal prints a
    double with the fewest digits that still denote it. *)

Module Number.

(** The value of a digit in radix 36. *)
Definition digitValue (c : char) : option N :=
  if (48 <=? c) && (c <=? 57) then Some (c - 48)
  else if (97 <=? c) && (c <=? 122) then Some (c - 87)
  else if (65 <=? c) && (c <=? 90) then Some (c - 55)
  else None.

Definition radixDigit (R : N) (c : char) : option N :=
  match digitValue c with
  | Some v => if v <? R then Some v else None
  | None => None
  end.

Fixpoint trimStart (s : str) : str :=
  match s with
  | c :: s' => if isSpace c then trimStart s' else s
  | [] => []
  end.

(** The digits of the longest prefix of [s] made of radix-[R] digits. *)
Fixpoint digitsPrefix (R : N) (s : str) : list N :=
  match s with
  | c :: s' =>
      match radixDigit R c with
      | Some v => v :: digitsPrefix R s'
      | None => []
      end
  | [] => []
  end.

Definition mathInt (R : N) (ds : list N) : N :=
  fold_left (fun acc d => acc * R + d) ds 0.

(** A leading "-" or "+": the sign, and the rest. *)
Definition stripSign (s : str) : Z * str :=
  match s with
  | c :: r =>
      if c =? 45 then ((-1)%Z, r)
      else if c =? 43 then (1%Z, r)
      else (1%Z, s)
  | [] => (1%Z, s)
  end.

(** A leading "0x" or "0X": the radix, and the rest. *)
Definition stripHexPrefix (s : str) : N * str :=
  match s with
  | c :: d :: r =>
      if (c =? 48) && ((d =? 120) || (d =? 88)) then (16, r) else (10, s)
  | _ => (10, s)
  end.

(** A number: [Int z] is the double of value [z].  The program only
    handles integers; [-0] is not told apart from [0], and both are
    written "0". *)
Inductive number := NaN | Int (z : Z) | Infinity (negative : bool).

Definition two53 : N := 9007199254740992.

(** The double nearest to a natural number, ties to the even significand
    of 53 bits; [None] beyond the largest double. *)
Definition roundDouble (m : N) : option N :=
  if m <=? two53 then Some m
  else
    let e := N.log2 m - 52 in
    let q := N.shiftr m e in
    let r := m - N.shiftl q e in
    let half := N.shiftl 1 (e - 1) in
    let q' := if (half <? r) || ((r =? half) && N.odd q) then q + 1 else q in
    let v := N.shiftl q' e in
    if N.shiftl 1 1024 <=? v then None else Some v.

(** The number for the mathematical integer [sign * m]. *)
Definition ofMathInt (sign : Z) (m : N) : number :=
  match roundDouble m with
  | Some v => Int (sign * Z.of_N v)
  | None => Infinity (sign <? 0)%Z
  end.

(** [parseInt(s)] without a radix. *)
Definition parseInt (s : str) : number :=
  let '(sign, s2) := stripSign (trimStart s) in
  let '(R, s3) := stripHexPrefix s2 in
  match digitsPrefix R s3 with
  | [] => NaN
  | ds => ofMathInt sign (mathInt R ds)
  end.

(** [isNaN(x)] *)
Definition isNaN (x : number) : bool :=
  match x with
  | NaN => true
  | _ => false
  end.

(** The decimal numeral of a natural number. *)
Definition decimal (m : N) : str := lit (NilZero.string_of_uint (N.to_uint m)).

Definition roundsTo (y x : N) : bool :=
  match roundDouble y with
  | Some v => v =? x
  | None => false
  end.

(** The integer with the fewest significant digits that rounds to the
    double [x] of [n] digits, the nearest one if there are several: tried
    with [k] significant digits, then with one more. *)
Fixpoint shortest (fuel k n : nat) (x : N) : N :=
  match fuel with
  | O => x
  | S fuel' =>
      let p := 10 ^ N.of_nat (n - k) in
      let s0 := x / p in
      let y0 := s0 * p in
      let y1 := y0 + p in
      let ok0 := roundsTo y0 x in
      let ok1 := roundsTo y1 x in
      if ok0 && ok1 then
        if x - y0 <? y1 - x then y0
        else if y1 - x <? x - y0 then y1
        else if N.even s0 then y0 else y1
      else if ok0 then y0
      else if ok1 then y1
      else shortest fuel' (S k) n x
  end.

Fixpoint dropZeros (r : str) : str :=
  match r with
  | c :: r' => if c =? 48 then dropZeros r' else r
  | [] => []
  end.

(** The text of a double whose value is the natural number [x]: all its
    digits up to [2^53]; above, the shortest digits, followed by zeros up to
    21 digits and in exponent form from there on. *)
Definition textOfDouble (x : N) : str :=
  if x <=? two53 then decimal x
  else
    let n := length (decimal x) in
    let y := shortest n 1 n x in
    let D := decimal y in
    if (length D <=? 21)%nat then D
    else
      match rev (dropZeros (rev D)) with
      | [] => D
      | d :: ds =>
          d :: (match ds with [] => [] | _ :: _ => 46 :: ds end)
            ++ lit "e+" ++ decimal (N.of_nat (length D - 1))
      end.

(** A number inside a template literal. *)
Definition toString (x : number) : str :=
  match x with
  | NaN => lit "NaN"
  | Infinity neg => (if neg then [45] else []) ++ lit "Infinity"
  | Int z => (if (z <? 0)%Z then [45] else []) ++ textOfDouble (Z.abs_N z)
  end.

End Number.

(** ** Options of the [diff] command *)

(** The interface [GitDiffOptions]; every field is optional.  [Ctx] is the
    type of [context]: the string of the command line before the action of
    the command has parsed it, a number after. *)
Record OptionBag (Ctx : Type) := {
  staged : option bool;
  unstaged : option bool;
  all : option bool;
  branch : option str;
  commit : option str;
  file : option str;
  context : option Ctx;
  color : option bool;
  wordDiff : option bool
}.

Arguments staged {Ctx} _.
Arguments unstaged {Ctx} _.
Arguments all {Ctx} _.
Arguments branch {Ctx} _.
Arguments commit {Ctx} _.
Arguments file {Ctx} _.
Arguments context {Ctx} _.
Arguments color {Ctx} _.
Arguments wordDiff {Ctx} _.

Abbreviation GitDiffOptions := (OptionBag Number.number).

(** The options as commander hands them to the action. *)
Abbreviation CommandLineOptions := (OptionBag str).

(** Truthiness of an optional boolean and of an optional string. *)
Definition truthyFlag (b : option bool) : bool :=
  match b with
  | Some true => true
  | _ => false
  end.

Definition truthyString (s : option str) : bool :=
  match s with
  | Some (_ :: _) => true
  | _ => false
  end.

(** An optional string inside a template literal. *)
Definition interpolate (s : option str) : str :=
  match s with
  | Some t => t
  | None => lit "undefined"
  end.

(** The action of the [diff] command:
    [checkDiff({...options, context: isNaN(context) ? 3 : context})]
    with [context = parseInt(options.context)]. *)
Definition resolveContext (raw : option str) : Number.number :=
  let context := Number.parseInt (interpolate raw) in
  if Number.isNaN context then Number.Int 3 else context.

Definition diffAction (options : CommandLineOptions) : GitDiffOptions :=
  {| staged := staged options;
     unstaged := unstaged options;
     all := all options;
     branch := branch options;
     commit := commit options;
     file := file options;
     context := Some (resolveContext (context options));
     color := color options;
     wordDiff := wordDiff options |}.

(** ** The command synthesizer (in [GitDiffChecker.checkDiff]) *)

(** The chain that sets [diffCommand] and [description]. *)
Definition selectMode (options : GitDiffOptions) : str * str :=
  if truthyFlag (staged options) then
    (lit "git diff --cached", lit "Staged changes")
  else if truthyFlag (unstaged options) then
    (lit "git diff", lit "Unstaged changes")
  else if truthyFlag (all options) then
    (lit "git diff HEAD", lit "All changes (staged + unstaged)")
  else if truthyString (branch options) then
    (lit "git diff " ++ interpolate (branch options),
     lit "Changes compared to " ++ interpolate (branch options))
  else if truthyString (commit options) then
    (lit "git diff " ++ interpolate (commit options),
     lit "Changes compared to " ++ interpolate (commit options))
  else
    (lit "git diff", lit "Working directory changes").

Definition description (options : GitDiffOptions) : str := snd (selectMode options).

(** The command that [checkDiff] runs. *)
Definition diffCommand (options : GitDiffOptions) : str :=
  let c0 := fst (selectMode options) in
  let c1 :=
    match context options with
    | Some n => c0 ++ lit " -U" ++ Number.toString n
    | None => c0
    end in
  let c2 := if truthyFlag (wordDiff options) then c1 ++ lit " --word-diff=color" else c1 in
  let c3 := c2 ++ lit " --ignore-submodules=all" in
  let c4 :=
    if truthyString (file options) then c3 ++ lit " -- " ++ interpolate (file options)
    else c3 in
  c4.

(** ** Terminal colours

    [chalk.<colour>(text)] wraps [text] in the escape sequences of the
    colour when the terminal supports them.  The library is not part of
    the program: it is a parameter of the components that print. *)

Inductive Colour := Yellow | Green | Red | Blue | Magenta | Gray.

Section Printing.

Variable chalk : Colour -> str -> str.

(** ** The status classifier (the summary in [GitDiffChecker.checkDiff]) *)

(** The six counters, and the lines written by [console.log]. *)
Record Summary := {
  modifiedCount : nat;
  addedCount : nat;
  deletedCount : nat;
  renamedCount : nat;
  unmergedCount : nat;
  untrackedCount : nat;
  console : list str
}.

Definition emptySummary : Summary :=
  {| modifiedCount := 0; addedCount := 0; deletedCount := 0;
     renamedCount := 0; unmergedCount := 0; untrackedCount := 0;
     console := [] |}.

(** The body of [status.forEach((fileStatus) => { ... })]. *)
Definition classify (s : Summary) (fileStatus : str) : Summary :=
  let status := substring fileStatus 0 2 in
  let filename := substringFrom fileStatus 3 in
  if includes status (lit "M") then
    {| modifiedCount := S (modifiedCount s); addedCount := addedCount s;
       deletedCount := deletedCount s; renamedCount := renamedCount s;
       unmergedCount := unmergedCount s; untrackedCount := untrackedCount s;
       console := console s ++ [chalk Yellow (lit "  Modified: " ++ filename)] |}
  else if includes status (lit "A") then
    {| modifiedCount := modifiedCount s; addedCount := S (addedCount s);
       deletedCount := deletedCount s; renamedCount := renamedCount s;
       unmergedCount := unmergedCount s; untrackedCount := untrackedCount s;
       console := console s ++ [chalk Green (lit "  Added: " ++ filename)] |}
  else if includes status (lit "D") then
    {| modifiedCount := modifiedCount s; addedCount := addedCount s;
       deletedCount := S (deletedCount s); renamedCount := renamedCount s;
       unmergedCount := unmergedCount s; untrackedCount := untrackedCount s;
       console := console s ++ [chalk Red (lit "  Deleted: " ++ filename)] |}
  else if includes status (lit "R") then
    {| modifiedCount := modifiedCount s; addedCount := addedCount s;
       deletedCount := deletedCount s; renamedCount := S (renamedCount s);
       unmergedCount := unmergedCount s; untrackedCount := untrackedCount s;
       console := console s ++ [chalk Blue (lit "  Renamed: " ++ filename)] |}
  else if includes status (lit "U") then
    {| modifiedCount := modifiedCount s; addedCount := addedCount s;
       deletedCount := deletedCount s; renamedCount := renamedCount s;
       unmergedCount := S (unmergedCount s); untrackedCount := untrackedCount s;
       console := console s ++ [chalk Magenta (lit "  Unmerged: " ++ filename)] |}
  else if eqb status (lit "??") then
    {| modifiedCount := modifiedCount s; addedCount := addedCount s;
       deletedCount := deletedCount s; renamedCount := renamedCount s;
       unmergedCount := unmergedCount s; untrackedCount := S (untrackedCount s);
       console := console s ++ [chalk Gray (lit "  Untracked: " ++ filename)] |}
  else s.

(** The counters after [status.forEach]. *)
Definition summarize (status : list str) : Summary :=
  fold_left classify status emptySummary.

(** The counters of a summary, in the order modified, added, deleted,
    renamed, unmerged, untracked. *)
Definition counters (s : Summary) : list nat :=
  [modifiedCount s; addedCount s; deletedCount s;
   renamedCount s; unmergedCount s; untrackedCount s].

(** How many of the six counters one line raises. *)
Definition categoriesTallied (fileStatus : str) : nat :=
  length (List.filter (fun n => Nat.ltb 0 n) (counters (classify emptySummary fileStatus))).

(** ** The output formatter *)

(** The function mapped over the lines. *)
Definition colourLine (line : str) : str :=
  if startsWith line (lit "+") then chalk Green line
  else if startsWith line (lit "-") then chalk Red line
  else if startsWith line (lit "@@") then chalk Blue line
  else if startsWith line (lit "diff --git") then chalk Yellow line
  else if startsWith line (lit "index") then chalk Gray line
  else line.

(** The rendering step: from [if (!options.color)] to the end of
    [formatDiffOutput]. *)
Definition render (diff : str) (options : GitDiffOptions) : str :=
  if negb (truthyFlag (color options)) then diff
  else join (colourLine <$> split diff).

(** [GitDiffChecker.formatDiffOutput]: the filter, then the rendering. *)
Definition formatDiffOutput (isPathIgnored : str -> bool)
    (diff : str) (options : GitDiffOptions) : str :=
  let filteredDiff := filterIgnoredFilesFromDiff isPathIgnored diff in
  render filteredDiff options.

End Printing.

(** ** The older copy of the tool, [src/cli/src/cli.ts]

    Its action, its mode chain and its colouring are those above.  It has
    no ignore filter, no submodule flag, and its summary prints the five
    tracked kinds of change without counting. *)

Module CliCopy.

Section Printing.

Variable chalk : Colour -> str -> str.

Definition formatDiffOutput (diff : str) (options : GitDiffOptions) : str :=
  render chalk diff options.

Definition diffCommand (options : GitDiffOptions) : str :=
  let c0 := fst (selectMode options) in
  let c1 :=
    match context options with
    | Some n => c0 ++ lit " -U" ++ Number.toString n
    | None => c0
    end in
  let c2 := if truthyFlag (wordDiff options) then c1 ++ lit " --word-diff=color" else c1 in
  let c3 :=
    if truthyString (file options) then c2 ++ lit " -- " ++ interpolate (file options)
    else c2 in
  c3.

(** What one status line adds to the console. *)
Definition classify (fileStatus : str) : list str :=
  let status := substring fileStatus 0 2 in
  let filename := substringFrom fileStatus 3 in
  if includes status (lit "M") then [chalk Yellow (lit "  Modified: " ++ filename)]
  else if includes status (lit "A") then [chalk Green (lit "  Added: " ++ filename)]
  else if includes status (lit "D") then [chalk Red (lit "  Deleted: " ++ filename)]
  else if includes status (lit "R") then [chalk Blue (lit "  Renamed: " ++ filename)]
  else if includes status (lit "U") then [chalk Magenta (lit "  Unmerged: " ++ filename)]
  else [].

End Printing.

End CliCopy.

(** ** Notions of the specification *)

(** The number of file sections of a diff text: one for each line that
    starts with the marker. *)
Definition sectionCount (diff : str) : nat :=
  length (List.filter isFileHeader (split diff)).

(** The two paths of each section header that the pattern recognises, in
    the order of the lines. *)
Definition sectionPaths (lines : list str) : list (str * str) :=
  omap (fun line => if isFileHeader line then matchHeader line else None) lines.

(** The effective path of a section: the destination, unless it is the
    sentinel, then the source. *)
Definition effectivePath (paths : str * str) : str :=
  if decide (paths.2 = devNull) then paths.1 else paths.2.

(** A line that opens a section whose effective path is ignored. *)
Definition opensIgnoredSection (isPathIgnored : str -> bool) (line : str) : bool :=
  isFileHeader line &&
  match matchHeader line with
  | Some paths => isPathIgnored (effectivePath paths)
  | None => false
  end.

(** Whether the last section of [lines] with a recognised header is
    ignored; [false] when there is none. *)
Definition lastParsedIgnored (isPathIgnored : str -> bool) (lines : list str) : bool :=
  match list.last (sectionPaths lines) with
  | Some paths => isPathIgnored (effectivePath paths)
  | None => false
  end.

(** A header line in the plain form [diff --git a/<old> b/<new>], with any
    white space [ws] between the two paths. *)
Definition headerLine (old ws new : str) : str :=
  lit "diff --git a/" ++ old ++ ws ++ lit "b/" ++ new.

(** A white-space character directly followed by [b/]. *)
Fixpoint spaceBeforeDest (s : str) : bool :=
  match s with
  | c :: s' => (isSpace c && startsWith s' (lit "b/")) || spaceBeforeDest s'
  | [] => false
  end.

Definition endsInSpace (s : str) : bool :=
  match list.last s with
  | Some c => isSpace c
  | None => false
  end.

(** The paths of a plain header: neither is empty or holds a line
    terminator; the first does not end in white space and holds no white
    space directly followed by [b/], so that the place where the second
    path starts is not in doubt; the white space between them is not
    empty. *)
Definition plainHeader (old ws new : str) : Prop :=
  old <> []
  /\ Forall (fun c => isLineTerminator c = false) old
  /\ endsInSpace old = false
  /\ spaceBeforeDest old = false
  /\ ws <> []
  /\ Forall (fun c => isSpace c = true) ws
  /\ new <> []
  /\ Forall (fun c => isLineTerminator c = false) new.

(** The path of a section with the paths [old] and [new]: the
    destination, or the source when the destination is [/dev/null]. *)
Definition sectionPath (old new : str) : str :=
  if decide (new = lit "/dev/null") then old else new.

(** The paths on which [git check-ignore] is run while the lines are
    filtered, in call order. *)
Definition queriesOf (isPathIgnored : str -> bool) (lines : list str) : list str :=
  queried (filterLoop isPathIgnored lines initialState).

(** The modes of a request, in the precedence order of the resolution. *)
Inductive Mode := Staged | Unstaged | Combined | CompareBranch | CompareCommit | WorkingTree.

Definition precedence : list Mode :=
  [Staged; Unstaged; Combined; CompareBranch; CompareCommit; WorkingTree].

(** The caller asked for the mode; the working tree is the fallback. *)
Definition requested (options : GitDiffOptions) (m : Mode) : bool :=
  match m with
  | Staged => truthyFlag (staged options)
  | Unstaged => truthyFlag (unstaged options)
  | Combined => truthyFlag (all options)
  | CompareBranch => truthyString (branch options)
  | CompareCommit => truthyString (commit options)
  | WorkingTree => true
  end.

(** The query and the description of each mode. *)
Definition modeQuery (options : GitDiffOptions) (m : Mode) : str * str :=
  match m with
  | Staged => (lit "git diff --cached", lit "Staged changes")
  | Unstaged => (lit "git diff", lit "Unstaged changes")
  | Combined => (lit "git diff HEAD", lit "All changes (staged + unstaged)")
  | CompareBranch =>
      (lit "git diff " ++ interpolate (branch options),
       lit "Changes compared to " ++ interpolate (branch options))
  | CompareCommit =>
      (lit "git diff " ++ interpolate (commit options),
       lit "Changes compared to " ++ interpolate (commit options))
  | WorkingTree => (lit "git diff", lit "Working directory changes")
  end.

Definition isDecimalDigit (c : char) : bool := (48 <=? c) && (c <=? 57).

(** The character of a decimal digit. *)
Definition digitChar (v : N) : char := 48 + v.

(** The value of a list of decimal digits, the most significant first. *)
Fixpoint decimalValue (ds : list N) : N :=
  match ds with
  | [] => 0
  | d :: r => d * 10 ^ N.of_nat (length r) + decimalValue r
  end.

(** [t] is the decimal numeral of the integer [z]: a minus sign when [z]
    is negative, then the digits of its absolute value, without a leading
    zero unless the numeral is "0". *)
Definition decimalNumeral (z : Z) (t : str) : Prop :=
  exists ds,
    t = (if (z <? 0)%Z then [45] else []) ++ (digitChar <$> ds)
    /\ Forall (fun v => v < 10) ds
    /\ match ds with
       | [] => False
       | [_] => True
       | v :: _ => v <> 0
       end
    /\ Z.of_N (decimalValue ds) = Z.abs z.

Definition isHexDigit (c : char) : bool :=
  isDecimalDigit c || ((97 <=? c) && (c <=? 102)) || ((65 <=? c) && (c <=? 70)).

(** The text starts with [0x] or [0X]. *)
Definition hexPrefixed (r : str) : bool :=
  match r with
  | c :: d :: _ => (c =? 48) && ((d =? 120) || (d =? 88))
  | _ => false
  end.

(** The text starts with a numeral: [0x] or [0X] and a hexadecimal digit,
    or else a decimal digit.  ([0x] without a hexadecimal digit after it
    is no numeral.) *)
Definition startsNumeral (r : str) : bool :=
  if hexPrefixed r then
    match drop 2 r with
    | h :: _ => isHexDigit h
    | [] => false
    end
  else
    match r with
    | c :: _ => isDecimalDigit c
    | [] => false
    end.

(** The option text begins with a number: white space, an optional sign,
    and a numeral. *)
Definition leadingNumber (s : str) : Prop :=
  exists ws sg r,
    s = ws ++ sg ++ r
    /\ Forall (fun c => isSpace c = true) ws
    /\ (sg = [] \/ sg = [45] \/ sg = [43])
    /\ startsNumeral r = true.

(** What [parseInt] does with the text after the sign, written as a
    function of its own; [parseInt_afterSign] relates the two. *)
Definition afterSign (sign : Z) (u : str) : Number.number :=
  let '(R, s3) := Number.stripHexPrefix u in
  match Number.digitsPrefix R s3 with
  | [] => Number.NaN
  | ds => Number.ofMathInt sign (Number.mathInt R ds)
  end.

(** The option bag with no field set, and the one of the example
    [{staged: true, all: true}]. *)
Definition noOptions {Ctx : Type} : OptionBag Ctx :=
  {| staged := None; unstaged := None; all := None; branch := None;
     commit := None; file := None; context := None; color := None;
     wordDiff := None |}.

Definition stagedAndAll : GitDiffOptions :=
  {| staged := Some true; unstaged := None; all := Some true; branch := None;
     commit := None; file := None; context := None; color := None;
     wordDiff := None |}.

(** ** The filter as a scan of the remaining lines

    The state machine behind the loop: what a run from the flag [skip]
    over the lines [ls] keeps, and the paths it asks about.  It is used to
    reason about [filterLoop], which it is proved to agree with. *)

Section Scan.

Variable isPathIgnored : str -> bool.

Definition keep (skip : bool) (line : str) : list str :=
  if skip then [] else [line].

Fixpoint scan (skip : bool) (ls : list str) : list str * list str :=
  match ls with
  | [] => ([], [])
  | line :: rest =>
      if isFileHeader line then
        match matchHeader line with
        | Some (oldPath, newPath) =>
            let filePath := filePathOf oldPath newPath in
            let r := scan (isPathIgnored filePath) rest in
            (keep (isPathIgnored filePath) line ++ r.1, filePath :: r.2)
        | None =>
            let r := scan skip rest in (keep skip line ++ r.1, r.2)
        end
      else
        let r := scan skip rest in (keep skip line ++ r.1, r.2)
  end.

(** The flag after a run over [ls]. *)
Fixpoint flagAfter (skip : bool) (ls : list str) : bool :=
  match ls with
  | [] => skip
  | line :: rest =>
      if isFileHeader line then
        match matchHeader line with
        | Some (oldPath, newPath) =>
            flagAfter (isPathIgnored (filePathOf oldPath newPath)) rest
        | None => flagAfter skip rest
        end
      else flagAfter skip rest
  end.

End Scan.

(** ** The rest of the tool

    The parts of the two files that the sections above leave out and that
    are text processing: the status lines of [getGitStatus], the test for
    an empty diff and the second command of [checkDiff]. *)

(** [s.trim()]: the white space and the line terminators at both ends go. *)
Definition trim (s : str) : str :=
  rev (Number.trimStart (rev (Number.trimStart s))).

(** [status.trim().split("\n").filter((line) => line.length > 0)], where
    [status] is what [git status --porcelain] printed.  It is all of
    [getGitStatus] in the older copy. *)
Definition statusLines (status : str) : list str :=
  List.filter (fun line => Nat.ltb 0 (length line)) (split (trim status)).

(** [GitDiffChecker.getGitStatus]: the status lines whose file name
    [git check-ignore] does not report. *)
Definition getGitStatus (isPathIgnored : str -> bool) (status : str) : list str :=
  List.filter (fun line => negb (isPathIgnored (substringFrom line 3)))
              (statusLines status).

(** The test [diff.trim() === ""] of [checkDiff], after which nothing but
    "No ... found" is printed. *)
Definition diffIsBlank (diff : str) : bool := eqb (trim diff) [].

(** The command of the line-change summary of [checkDiff]: a second chain
    on the same options, the file, then the flags. *)
Definition shortstatCommand (options : GitDiffOptions) : str :=
  let c0 :=
    if truthyFlag (staged options) then lit "git diff --cached"
    else if truthyFlag (unstaged options) then lit "git diff"
    else if truthyFlag (all options) then lit "git diff HEAD"
    else if truthyString (branch options) then
      lit "git diff " ++ interpolate (branch options)
    else if truthyString (commit options) then
      lit "git diff " ++ interpolate (commit options)
    else lit "git diff" in
  let c1 :=
    if truthyString (file options) then c0 ++ lit " -- " ++ interpolate (file options)
    else c0 in
  c1 ++ lit " --shortstat --ignore-submodules=all".

(** A line that starts with the marker and on which the pattern finds the
    two paths. *)
Definition recognisedHeader (line : str) : bool :=
  isFileHeader line &&
  match matchHeader line with
  | Some _ => true
  | None => false
  end.

(** A state character occurs in the two-character code of a status line. *)
Definition hasState (c : char) (fileStatus : str) : bool :=
  bool_decide (c ∈ take 2 fileStatus).

(** The lines that each counter counts: a line counts for the first kind,
    in the order M, A, D, R, U, whose letter is in its code, and as
    untracked when its code is "??". *)
Definition isModified (l : str) : bool := hasState 77 l.
Definition isAdded (l : str) : bool := hasState 65 l && negb (hasState 77 l).
Definition isDeleted (l : str) : bool :=
  hasState 68 l && negb (hasState 77 l) && negb (hasState 65 l).
Definition isRenamed (l : str) : bool :=
  hasState 82 l && negb (hasState 77 l) && negb (hasState 65 l)
  && negb (hasState 68 l).
Definition isUnmerged (l : str) : bool :=
  hasState 85 l && negb (hasState 77 l) && negb (hasState 65 l)
  && negb (hasState 68 l) && negb (hasState 82 l).
Definition isUntracked (l : str) : bool := eqb (take 2 l) (lit "??").

Definition indicator (b : bool) : nat := if b then 1 else 0.

(** The number of status lines that satisfy a test. *)
Definition countLines (test : str -> bool) (status : list str) : nat :=
  length (List.filter test status).

(** * Properties *)

(** ** Strings *)

Lemma eqb_eq (s t : str) : eqb s t = true <-> s = t.
Proof.
  revert t. induction s as [|c s IH]; intros [|d t]; simpl; try easy.
  rewrite andb_true_iff, IH, N.eqb_eq. split.
  - intros [-> ->]. reflexivity.
  - intros [= -> ->]. easy.
Qed.

Lemma eqb_neq (s t : str) : eqb s t = false <-> s <> t.
Proof.
  rewrite <- eqb_eq. destruct (eqb s t); split; congruence.
Qed.

Lemma split_nonempty (s : str) : split s <> [].
Proof.
  destruct s as [|c s]; simpl; [easy|].
  destruct (c =? LF); [easy|]. destruct (split s); easy.
Qed.

Lemma join_cons (l : str) (ls : list str) :
  ls <> [] -> join (l :: ls) = l ++ LF :: join ls.
Proof. destruct ls; [congruence|reflexivity]. Qed.

(** Splitting a text into lines and joining them gives the text back. *)
Lemma join_split (s : str) : join (split s) = s.
Proof.
  induction s as [|c s IH]; [reflexivity|]. simpl.
  destruct (c =? LF) eqn:E.
  - apply N.eqb_eq in E. subst c.
    rewrite join_cons by apply split_nonempty. simpl. now rewrite IH.
  - pose proof (split_nonempty s) as Hne.
    destruct (split s) as [|l ls]; [congruence|].
    destruct ls as [|l' ls]; simpl in *; now rewrite <- IH.
Qed.

(** No line of a text holds a line feed. *)
Lemma split_noLF (s : str) : Forall (fun l => LF ∉ l) (split s).
Proof.
  induction s as [|c s IH]; simpl.
  - constructor; [apply not_elem_of_nil|constructor].
  - destruct (c =? LF) eqn:E.
    + constructor; [apply not_elem_of_nil|exact IH].
    + apply N.eqb_neq in E.
      destruct (split s) as [|l ls].
      * constructor; [|constructor].
        intros H. apply list_elem_of_singleton in H. congruence.
      * inversion IH; subst. constructor; [|assumption].
        rewrite elem_of_cons. intros [?|?]; [congruence|contradiction].
Qed.

Lemma split_line (l : str) : LF ∉ l -> split l = [l].
Proof.
  induction l as [|c l IH]; intros H; [reflexivity|].
  rewrite not_elem_of_cons in H. destruct H as [Hc Hl]. simpl.
  destruct (c =? LF) eqn:E; [apply N.eqb_eq in E; congruence|].
  now rewrite (IH Hl).
Qed.

Lemma split_app_LF (l r : str) : LF ∉ l -> split (l ++ LF :: r) = l :: split r.
Proof.
  induction l as [|c l IH]; intros H; [reflexivity|].
  rewrite not_elem_of_cons in H. destruct H as [Hc Hl]. simpl.
  destruct (c =? LF) eqn:E; [apply N.eqb_eq in E; congruence|].
  now rewrite (IH Hl).
Qed.

(** Joining lines without line feeds and splitting gives the lines back. *)
Lemma split_join (ls : list str) :
  ls <> [] -> Forall (fun l => LF ∉ l) ls -> split (join ls) = ls.
Proof.
  induction ls as [|l ls IH]; [congruence|]. intros _ H.
  inversion H as [|? ? Hl Hls]; subst.
  destruct ls as [|l' ls].
  - simpl. now apply split_line.
  - rewrite join_cons by easy. rewrite split_app_LF by assumption.
    f_equal. now apply IH.
Qed.

(** ** The loop and the scan *)

Section LoopFacts.

Variable isPathIgnored : str -> bool.

Lemma skipToNextHeader_step (lines : list str) (i : nat) :
  skipToNextHeader lines i =
  match lines !! i with
  | Some line => if negb (isFileHeader line) then skipToNextHeader lines (S i) else i
  | None => i
  end.
Proof.
  funelim (skipToNextHeader lines i).
  - rewrite Hi. reflexivity.
  - rewrite e. reflexivity.
Qed.

Lemma filterLoop_step (lines : list str) (st : LoopState) :
  filterLoop isPathIgnored lines st =
  match lines !! idx st with
  | Some line =>
      filterLoop isPathIgnored lines (increment (iteration isPathIgnored lines line st))
  | None => st
  end.
Proof.
  funelim (filterLoop isPathIgnored lines st).
  - rewrite Hi. reflexivity.
  - rewrite e. reflexivity.
Qed.

(** With the flag set, the lines up to the next header are dropped one by
    one: the inner loop may jump over them. *)
Lemma scan_skipToNextHeader (lines : list str) (i : nat) :
  scan isPathIgnored true (drop i lines) =
  scan isPathIgnored true (drop (skipToNextHeader lines i) lines).
Proof.
  funelim (skipToNextHeader lines i).
  - destruct (isFileHeader line) eqn:E; simpl; [reflexivity|].
    rewrite <- H. rewrite (drop_S _ _ _ Hi). simpl. rewrite E. simpl.
    now destruct (scan isPathIgnored true (drop (S i) lines)).
  - reflexivity.
Qed.

(** The loop from any state keeps and asks what the scan of the remaining
    lines does. *)
Lemma filterLoop_scan (lines : list str) (st : LoopState) :
  filtered (filterLoop isPathIgnored lines st) =
    filtered st ++ (scan isPathIgnored (skipCurrentFile st) (drop (idx st) lines)).1
  /\ queried (filterLoop isPathIgnored lines st) =
    queried st ++ (scan isPathIgnored (skipCurrentFile st) (drop (idx st) lines)).2.
Proof.
  remember (length lines - idx st)%nat as m eqn:Hm.
  revert st Hm. induction (lt_wf m) as [m _ IH]. intros st Hm.
  rewrite filterLoop_step.
  destruct (lines !! idx st) as [line|] eqn:Hi.
  - pose proof (lookup_lt_Some _ _ _ Hi) as Hlt.
    pose proof (iteration_idx isPathIgnored lines line st) as Hge.
    rewrite (drop_S _ _ _ Hi). simpl.
    set (st' := increment (iteration isPathIgnored lines line st)).
    assert (Hlt' : (length lines - idx st' < m)%nat) by (subst; simpl; lia).
    destruct (IH _ Hlt' st' eq_refl) as [Hf Hq].
    rewrite Hf, Hq. subst st'. clear IH Hf Hq Hlt'.
    unfold iteration.
    destruct (isFileHeader line) eqn:Eh.
    + destruct (matchHeader line) as [[oldPath newPath]|] eqn:Em.
      * destruct (isPathIgnored (filePathOf oldPath newPath)) eqn:Ei; simpl.
        -- pose proof (skipToNextHeader_ge lines (S (idx st))) as Hj.
           replace (S (skipToNextHeader lines (S (idx st)) - 1))
             with (skipToNextHeader lines (S (idx st))) by lia.
           rewrite <- scan_skipToNextHeader.
           rewrite <- !app_assoc. simpl. easy.
        -- rewrite <- !app_assoc. simpl. easy.
      * destruct (skipCurrentFile st); simpl; rewrite <- ?app_assoc; easy.
    + destruct (skipCurrentFile st); simpl; rewrite <- ?app_assoc; easy.
  - rewrite (drop_ge lines (idx st)) by (now apply lookup_ge_None).
    simpl. now rewrite !app_nil_r.
Qed.

Lemma filterLines_scan (lines : list str) :
  filterLines isPathIgnored lines = (scan isPathIgnored false lines).1.
Proof.
  unfold filterLines.
  now rewrite (proj1 (filterLoop_scan lines initialState)).
Qed.

Lemma ignoreQueries_scan (diff : str) :
  ignoreQueries isPathIgnored diff = (scan isPathIgnored false (split diff)).2.
Proof.
  unfold ignoreQueries.
  now rewrite (proj2 (filterLoop_scan (split diff) initialState)).
Qed.

End LoopFacts.

(** ** Facts about the scan *)

Section ScanFacts.

Variable isPathIgnored : str -> bool.

Lemma filePathOf_effectivePath (oldPath newPath : str) :
  filePathOf oldPath newPath = effectivePath (oldPath, newPath).
Proof.
  unfold filePathOf, effectivePath. simpl.
  destruct (decide (newPath = devNull)) as [->|Hne].
  - now rewrite (proj2 (eqb_eq devNull devNull) eq_refl).
  - now rewrite (proj2 (eqb_neq newPath devNull) Hne).
Qed.

Lemma scan_app (skip : bool) (l1 l2 : list str) :
  scan isPathIgnored skip (l1 ++ l2) =
  ((scan isPathIgnored skip l1).1
     ++ (scan isPathIgnored (flagAfter isPathIgnored skip l1) l2).1,
   (scan isPathIgnored skip l1).2
     ++ (scan isPathIgnored (flagAfter isPathIgnored skip l1) l2).2).
Proof.
  revert skip. induction l1 as [|line l1 IH]; intros skip; simpl.
  - now destruct (scan isPathIgnored skip l2).
  - destruct (isFileHeader line); [destruct (matchHeader line) as [[o n]|]|];
      rewrite IH; simpl; now rewrite <- app_assoc.
Qed.

Lemma sectionPaths_cons (line : str) (ls : list str) :
  sectionPaths (line :: ls) =
  match (if isFileHeader line then matchHeader line else None) with
  | Some paths => paths :: sectionPaths ls
  | None => sectionPaths ls
  end.
Proof. reflexivity. Qed.

(** The flag after a run is the answer for the last recognised header. *)
Lemma flagAfter_last (skip : bool) (ls : list str) :
  flagAfter isPathIgnored skip ls =
  match list.last (sectionPaths ls) with
  | Some paths => isPathIgnored (effectivePath paths)
  | None => skip
  end.
Proof.
  revert skip. induction ls as [|line ls IH]; intros skip; [reflexivity|].
  rewrite sectionPaths_cons. cbn [flagAfter].
  destruct (isFileHeader line); [destruct (matchHeader line) as [[o n]|]|];
    rewrite IH; try reflexivity.
  rewrite filePathOf_effectivePath.
  destruct (sectionPaths ls) as [|p ps]; [reflexivity|].
  rewrite last_cons_cons.
  destruct (list.last (p :: ps)) eqn:E; [reflexivity|].
  apply last_None in E. discriminate.
Qed.

Lemma flagAfter_initial (ls : list str) :
  flagAfter isPathIgnored false ls = lastParsedIgnored isPathIgnored ls.
Proof. apply flagAfter_last. Qed.

(** Lines that are no headers are kept or dropped together, and leave the
    flag as it is. *)
Lemma scan_body (skip : bool) (body : list str) :
  Forall (fun l => isFileHeader l = false) body ->
  (scan isPathIgnored skip body).1 = (if skip then [] else body)
  /\ flagAfter isPathIgnored skip body = skip.
Proof.
  induction 1 as [|line body Hl _ [IH1 IH2]]; simpl.
  - now destruct skip.
  - rewrite Hl. simpl. rewrite IH1, IH2. now destruct skip.
Qed.

(** The scan asks about the effective path of every recognised header,
    whatever the flag. *)
Lemma scan_queries (skip : bool) (ls : list str) :
  (scan isPathIgnored skip ls).2 = effectivePath <$> sectionPaths ls.
Proof.
  revert skip. induction ls as [|line ls IH]; intros skip; [reflexivity|].
  unfold sectionPaths in *. simpl.
  destruct (isFileHeader line); [destruct (matchHeader line) as [[o n]|]|];
    simpl; rewrite IH; try reflexivity.
  now rewrite filePathOf_effectivePath.
Qed.

(** What holds of every line holds of every line kept. *)
Lemma scan_Forall (Q : str -> Prop) (skip : bool) (ls : list str) :
  Forall Q ls -> Forall Q (scan isPathIgnored skip ls).1.
Proof.
  intros H. revert skip. induction H as [|line ls Hl _ IH]; intros skip; simpl.
  - constructor.
  - destruct (isFileHeader line); [destruct (matchHeader line) as [[o n]|]|];
      simpl; unfold keep;
      repeat match goal with |- context [if ?b then _ else _] => destruct b end;
      simpl; try constructor; auto.
Qed.

(** No line kept opens an ignored section. *)
Lemma scan_not_ignored (skip : bool) (ls : list str) :
  Forall (fun l => opensIgnoredSection isPathIgnored l = false)
         (scan isPathIgnored skip ls).1.
Proof.
  revert skip. induction ls as [|line ls IH]; intros skip; simpl; [constructor|].
  destruct (isFileHeader line) eqn:Eh;
    [destruct (matchHeader line) as [[o n]|] eqn:Em|]; simpl; unfold keep.
  - destruct (isPathIgnored (filePathOf o n)) eqn:Ei; simpl; [apply IH|].
    constructor; [|apply IH].
    unfold opensIgnoredSection. rewrite Eh, Em.
    now rewrite <- filePathOf_effectivePath.
  - destruct skip; simpl; [apply IH|]. constructor; [|apply IH].
    unfold opensIgnoredSection. now rewrite Eh, Em.
  - destruct skip; simpl; [apply IH|]. constructor; [|apply IH].
    unfold opensIgnoredSection. now rewrite Eh.
Qed.

(** The lines kept hold no more headers than the lines scanned. *)
Lemma scan_headers (skip : bool) (ls : list str) :
  (length (List.filter isFileHeader (scan isPathIgnored skip ls).1)
   <= length (List.filter isFileHeader ls))%nat.
Proof.
  revert skip. induction ls as [|line ls IH]; intros skip; simpl; [lia|].
  destruct (isFileHeader line) eqn:Eh;
    [destruct (matchHeader line) as [[o n]|] eqn:Em|]; simpl; unfold keep;
    repeat match goal with |- context [if ?b then _ else _] => destruct b eqn:? end;
    simpl; rewrite ?Eh; simpl;
    match goal with |- context [scan _ ?s ls] => specialize (IH s) end; lia.
Qed.

(** When nothing is ignored the scan keeps every line. *)
Lemma scan_nothing_ignored (ls : list str) :
  (forall p, isPathIgnored p = false) ->
  (scan isPathIgnored false ls).1 = ls.
Proof.
  intros Hno. induction ls as [|line ls IH]; [reflexivity|]. simpl.
  destruct (isFileHeader line); [destruct (matchHeader line) as [[o n]|]|];
    simpl; rewrite ?Hno; simpl; now rewrite IH.
Qed.

End ScanFacts.

(** ** The diff-section filter *)

(** C4. Filtering with a predicate that ignores no path returns the diff
    text unchanged. *)
Theorem filter_nothing_ignored (d : str) :
  filterIgnoredFilesFromDiff (fun _ => false) d = d.
Proof.
  unfold filterIgnoredFilesFromDiff.
  rewrite filterLines_scan, scan_nothing_ignored by reflexivity.
  apply join_split.
Qed.

(** The lines of the filtered text are the lines the loop kept, except
    that an empty result reads as one empty line. *)
Lemma split_filtered (isPathIgnored : str -> bool) (d : str) :
  let kept := filterLines isPathIgnored (split d) in
  split (filterIgnoredFilesFromDiff isPathIgnored d) =
  match kept with
  | [] => [[]]
  | _ :: _ => kept
  end.
Proof.
  intros kept. unfold filterIgnoredFilesFromDiff. fold kept.
  assert (Hno : Forall (fun l => LF ∉ l) kept).
  { subst kept. rewrite filterLines_scan. apply scan_Forall, split_noLF. }
  destruct kept as [|l ls] eqn:E; [reflexivity|].
  now apply split_join.
Qed.

(** Of the headers that the pattern recognises, the filtered text holds
    none whose path is ignored, and it has at most as many marker lines as
    the raw text. *)
Lemma filter_drops_ignored_sections (isPathIgnored : str -> bool) (d : str) :
  Forall (fun line => opensIgnoredSection isPathIgnored line = false)
         (split (filterIgnoredFilesFromDiff isPathIgnored d))
  /\ (sectionCount (filterIgnoredFilesFromDiff isPathIgnored d) <= sectionCount d)%nat.
Proof.
  unfold sectionCount. rewrite split_filtered.
  pose proof (scan_not_ignored isPathIgnored false (split d)) as Hn.
  pose proof (scan_headers isPathIgnored false (split d)) as Hc.
  rewrite <- filterLines_scan in Hn, Hc.
  destruct (filterLines isPathIgnored (split d)) as [|l ls].
  - split; [repeat constructor|simpl; lia].
  - split; assumption.
Qed.

(** The paths handed to the ignore predicate are those of the headers that
    the pattern recognises, in the order of the lines. *)
Lemma filter_queries_effective_path (isPathIgnored : str -> bool) (d : str) :
  ignoreQueries isPathIgnored d = effectivePath <$> sectionPaths (split d).
Proof.
  rewrite ignoreQueries_scan. apply scan_queries.
Qed.

(** C10. A header line that the pattern does not recognise leaves the
    flag as it is: its section is dropped when the last recognised header
    before it was ignored, and kept unchanged otherwise; the loop goes on
    after the section with the same flag. *)
Theorem filter_unparsed_header (isPathIgnored : str -> bool)
    (pre : list str) (h : str) (body rest : list str) :
  isFileHeader h = true ->
  matchHeader h = None ->
  Forall (fun l => isFileHeader l = false) body ->
  (forall lines st,
     skipCurrentFile (iteration isPathIgnored lines h st) = skipCurrentFile st)
  /\ filterLines isPathIgnored (pre ++ h :: body ++ rest) =
       filterLines isPathIgnored pre
       ++ (if lastParsedIgnored isPathIgnored pre then [] else h :: body)
       ++ filtered (filterLoop isPathIgnored (pre ++ h :: body ++ rest)
            {| idx := length pre + S (length body);
               skipCurrentFile := lastParsedIgnored isPathIgnored pre;
               filtered := []; queried := [] |}).
Proof.
  intros Hh Hm Hb. split.
  { intros lines st. unfold iteration. rewrite Hh, Hm.
    now destruct (skipCurrentFile st). }
  rewrite (proj1 (filterLoop_scan _ _ _)). simpl.
  replace (drop (length pre + S (length body)) (pre ++ h :: body ++ rest))
    with rest.
  2:{ rewrite drop_app_add. simpl. now rewrite drop_app_length. }
  rewrite !filterLines_scan, scan_app, flagAfter_initial. simpl.
  rewrite Hh, Hm. simpl. rewrite scan_app. simpl.
  destruct (scan_body isPathIgnored (lastParsedIgnored isPathIgnored pre) body Hb)
    as [-> ->].
  f_equal. now destruct (lastParsedIgnored isPathIgnored pre).
Qed.

(** An unrecognised header after an ignored section: the header
    [diff --git weird] and its line are dropped with the section of
    [b.log]. *)
Lemma filter_unparsed_header_witness :
  let ignored := fun p => eqb p (lit "b.log") in
  let pre := [lit "diff --git a/b.log b/b.log"; lit "-y"] in
  let h := lit "diff --git weird" in
  let body := [lit "z"] in
  let rest := [lit "diff --git a/a.txt b/a.txt"; lit "+x"] in
  lastParsedIgnored ignored pre = true
  /\ filterLines ignored (pre ++ h :: body ++ rest) = rest.
Proof.
  intros ignored pre h body rest. split; [reflexivity|].
  assert (Hh : isFileHeader h = true) by reflexivity.
  assert (Hm : matchHeader h = None) by reflexivity.
  assert (Hb : Forall (fun l => isFileHeader l = false) body)
    by (repeat constructor).
  rewrite (proj2 (filter_unparsed_header ignored pre h body rest Hh Hm Hb)).
  reflexivity.
Defined.

(** The header format named in the comment of the source,
    [diff --git a/path b/dev/null], has the destination [dev/null], which
    is not the sentinel; the source path is taken for [b//dev/null]. *)
Example queries_deleted_file :
  ignoreQueries (fun _ => false) (lit "diff --git a/old.txt b//dev/null") = [lit "old.txt"]
  /\ ignoreQueries (fun _ => false) (lit "diff --git a/path b/dev/null") = [lit "dev/null"]
  /\ ignoreQueries (fun _ => false) (lit "diff --git a/x.ts b/y.ts") = [lit "y.ts"].
Proof. repeat split. Qed.

(** The scenario of the specification: of the sections of [a.txt] and
    [b.log], the second ignored, the first is kept verbatim. *)
Example filter_scenario :
  let d := lit "diff --git a/a.txt b/a.txt" ++ LF :: lit "+x" ++ LF ::
           lit "diff --git a/b.log b/b.log" ++ LF :: lit "-y" in
  filterIgnoredFilesFromDiff (fun p => eqb p (lit "b.log")) d
  = lit "diff --git a/a.txt b/a.txt" ++ LF :: lit "+x".
Proof. reflexivity. Qed.

(** ** The command synthesizer *)

(** C1. Exactly one mode is selected for every combination of options:
    the first requested one in the order staged, unstaged, all, branch,
    commit, working tree; [{staged: true, all: true}] resolves to
    "Staged changes", not to "All changes". *)
Theorem mode_precedence (options : GitDiffOptions) :
  (exists! m : Mode,
     List.find (requested options) precedence = Some m
     /\ selectMode options = modeQuery options m)
  /\ description stagedAndAll = lit "Staged changes"
  /\ description stagedAndAll <> lit "All changes (staged + unstaged)".
Proof.
  split; [|split; [reflexivity|discriminate]].
  assert (H : exists m, List.find (requested options) precedence = Some m
                        /\ selectMode options = modeQuery options m).
  { unfold selectMode, precedence. simpl.
    destruct (truthyFlag (staged options)); [eexists; split; reflexivity|].
    destruct (truthyFlag (unstaged options)); [eexists; split; reflexivity|].
    destruct (truthyFlag (all options)); [eexists; split; reflexivity|].
    destruct (truthyString (branch options)); [eexists; split; reflexivity|].
    destruct (truthyString (commit options)); eexists; split; reflexivity. }
  destruct H as [m [Hf Hs]]. exists m. split; [easy|].
  intros m' [Hf' _]. congruence.
Qed.

(** ** The context option *)

Section ParseIntFacts.

Import Number.

Lemma radixDigit_decimal (c : char) :
  isDecimalDigit c = false -> radixDigit 10 c = None.
Proof.
  unfold isDecimalDigit, radixDigit, digitValue. intros H. rewrite H.
  destruct ((97 <=? c) && (c <=? 122)) eqn:E1.
  - apply andb_true_iff in E1. destruct E1 as [E1 _]. apply N.leb_le in E1.
    destruct (c - 87 <? 10) eqn:E; [apply N.ltb_lt in E; lia|reflexivity].
  - destruct ((65 <=? c) && (c <=? 90)) eqn:E2; [|reflexivity].
    apply andb_true_iff in E2. destruct E2 as [E2 _]. apply N.leb_le in E2.
    destruct (c - 55 <? 10) eqn:E; [apply N.ltb_lt in E; lia|reflexivity].
Qed.

End ParseIntFacts.

(** What [parseInt] makes of other texts: a number in front of other text
    is read; a number too long for a double is rounded. *)
Example context_examples :
  resolveContext (Some (lit "5")) = Number.Int 5
  /\ resolveContext (Some (lit "  12px")) = Number.Int 12
  /\ resolveContext (Some (lit "-2")) = Number.Int (-2)
  /\ resolveContext (Some (lit "0x1f")) = Number.Int 31
  /\ resolveContext (Some (lit "abc1")) = Number.Int 3
  /\ resolveContext (Some (lit "")) = Number.Int 3
  /\ resolveContext (Some (lit "9007199254740993")) = Number.Int 9007199254740992
  /\ Number.toString (resolveContext (Some (lit "99999999999999999999999")))
     = lit "1e+23".
Proof. repeat split. Qed.

(** ** The output formatter *)

(** C8. Without colours the rendering returns its input unchanged, so
    [formatDiffOutput] returns the filtered text as it is (the raw text, in
    the copy without a filter); the empty text is returned as the empty
    text with or without colours. *)
Theorem render_without_colour (chalk : Colour -> str -> str)
    (isPathIgnored : str -> bool) (diff : str) (options : GitDiffOptions) :
  (truthyFlag (color options) = false ->
     render chalk diff options = diff
     /\ formatDiffOutput chalk isPathIgnored diff options
        = filterIgnoredFilesFromDiff isPathIgnored diff
     /\ CliCopy.formatDiffOutput chalk diff options = diff)
  /\ render chalk [] options = []
  /\ formatDiffOutput chalk isPathIgnored [] options = []
  /\ CliCopy.formatDiffOutput chalk [] options = [].
Proof.
  unfold CliCopy.formatDiffOutput, formatDiffOutput, render.
  split.
  - intros ->. simpl. easy.
  - destruct (truthyFlag (color options)); simpl; easy.
Qed.

(** The option [--no-color] on a diff of two lines. *)
Lemma render_without_colour_witness :
  let options : GitDiffOptions :=
    {| staged := None; unstaged := None; all := None; branch := None;
       commit := None; file := None; context := Some (Number.Int 3);
       color := Some false; wordDiff := None |} in
  let d := lit "diff --git a/a.txt b/a.txt" ++ LF :: lit "+x" in
  render (fun _ line => line) d options = d.
Proof.
  intros options d.
  apply (proj1 (render_without_colour (fun _ line => line) (fun _ => false) d options)).
  reflexivity.
Defined.

(** With colours every line is tagged by its first characters. *)
Example render_with_colour (chalk : Colour -> str -> str) :
  render chalk (lit "diff --git a/a b/a" ++ LF :: lit "index 1..2" ++ LF ::
                lit "@@ -1 +1 @@" ++ LF :: lit "-x" ++ LF :: lit "+y" ++ LF :: lit " z")
         {| staged := None; unstaged := None; all := None; branch := None;
            commit := None; file := None; context := None;
            color := Some true; wordDiff := None |}
  = chalk Yellow (lit "diff --git a/a b/a") ++ LF :: chalk Gray (lit "index 1..2") ++ LF ::
    chalk Blue (lit "@@ -1 +1 @@") ++ LF :: chalk Red (lit "-x") ++ LF ::
    chalk Green (lit "+y") ++ LF :: lit " z".
Proof. reflexivity. Qed.

(** ** The status classifier *)

(** C7. A line whose code is "??" is recorded as untracked, with the path
    from the fourth character on, and raises the counter of untracked files
    only: the counters of the five tracked kinds stay as they are. *)
Theorem classify_untracked (chalk : Colour -> str -> str)
    (s : Summary) (fileStatus : str) :
  substring fileStatus 0 2 = lit "??" ->
  classify chalk s fileStatus =
    {| modifiedCount := modifiedCount s; addedCount := addedCount s;
       deletedCount := deletedCount s; renamedCount := renamedCount s;
       unmergedCount := unmergedCount s;
       untrackedCount := S (untrackedCount s);
       console := console s
                  ++ [chalk Gray (lit "  Untracked: " ++ drop 3 fileStatus)] |}.
Proof.
  intros H. unfold classify. rewrite H. reflexivity.
Qed.

(** The line [?? newfile.txt] of the specification. *)
Lemma classify_untracked_witness :
  counters (classify (fun _ line => line) emptySummary (lit "?? newfile.txt"))
    = [0; 0; 0; 0; 0; 1]%nat
  /\ console (classify (fun _ line => line) emptySummary (lit "?? newfile.txt"))
    = [lit "  Untracked: newfile.txt"].
Proof.
  rewrite (classify_untracked (fun _ line => line) emptySummary
             (lit "?? newfile.txt") eq_refl).
  split; reflexivity.
Defined.

(** The other line of the specification, [ M src/a.ts]. *)
Example classify_modified :
  counters (classify (fun _ line => line) emptySummary (lit " M src/a.ts"))
    = [1; 0; 0; 0; 0; 0]%nat
  /\ console (classify (fun _ line => line) emptySummary (lit " M src/a.ts"))
    = [lit "  Modified: src/a.ts"].
Proof. split; reflexivity. Qed.

(** One line raises one counter at most: the tests form a chain, and the
    first that succeeds decides. *)
Lemma classify_one_counter (chalk : Colour -> str -> str) (s : Summary) (fileStatus : str) :
  (sum_list (counters (classify chalk s fileStatus)) <= S (sum_list (counters s)))%nat
  /\ (categoriesTallied chalk fileStatus <= 1)%nat.
Proof.
  unfold categoriesTallied, classify, counters.
  repeat match goal with |- context [if ?b then _ else _] => destruct b end;
    simpl; lia.
Qed.

(** C6, as stated, fails: no status line is tallied under more than one
    category. *)
Lemma no_line_tallied_twice :
  ~ exists (chalk : Colour -> str -> str) (fileStatus : str),
      (1 < categoriesTallied chalk fileStatus)%nat.
Proof.
  intros (chalk & fileStatus & H).
  pose proof (proj2 (classify_one_counter chalk emptySummary fileStatus)). lia.
Qed.

(** ** The older copy *)

(** The older copy never adds the submodule flag, and prints nothing for
    an untracked file. *)
Example CliCopy_differences (chalk : Colour -> str -> str) :
  CliCopy.diffCommand
    (diffAction {| staged := None; unstaged := None; all := None; branch := None;
                   commit := None; file := None; context := Some (lit "3");
                   color := Some true; wordDiff := None |})
    = lit "git diff -U3"
  /\ CliCopy.classify chalk (lit "?? newfile.txt") = [].
Proof. split; reflexivity. Qed.

(** * Further properties *)

(** ** More on the diff-section filter *)

Section FilterMore.

Variable isPathIgnored : str -> bool.

Lemma scan_sublist (skip : bool) (ls : list str) :
  sublist (scan isPathIgnored skip ls).1 ls.
Proof.
  revert skip. induction ls as [|line ls IH]; intros skip; simpl; [constructor|].
  destruct (isFileHeader line); [destruct (matchHeader line) as [[o n]|]|];
    simpl; unfold keep;
    repeat match goal with |- context [if ?b then _ else _] => destruct b end;
    simpl; (apply sublist_skip || apply sublist_cons); apply IH.
Qed.

(** A second run keeps everything that a first run kept. *)
Lemma scan_kept_fixed (skip : bool) (ls : list str) :
  (scan isPathIgnored false (scan isPathIgnored skip ls).1).1
  = (scan isPathIgnored skip ls).1.
Proof.
  revert skip. induction ls as [|line ls IH]; intros skip; [reflexivity|].
  simpl.
  destruct (isFileHeader line) eqn:Eh;
    [destruct (matchHeader line) as [[o n]|] eqn:Em|]; simpl; unfold keep.
  - destruct (isPathIgnored (filePathOf o n)) eqn:Ei; simpl; [apply IH|].
    rewrite Eh, Em, Ei. simpl. now rewrite IH.
  - destruct skip; simpl; [apply IH|]. rewrite Eh, Em. simpl. now rewrite IH.
  - destruct skip; simpl; [apply IH|]. rewrite Eh. simpl. now rewrite IH.
Qed.

(** After a recognised header the flag before it does not matter. *)
Lemma scan_recognised (skip : bool) (h : str) (paths : str * str) (ls : list str) :
  isFileHeader h = true -> matchHeader h = Some paths ->
  scan isPathIgnored skip (h :: ls) =
  (keep (isPathIgnored (effectivePath paths)) h
     ++ (scan isPathIgnored (isPathIgnored (effectivePath paths)) ls).1,
   effectivePath paths
     :: (scan isPathIgnored (isPathIgnored (effectivePath paths)) ls).2).
Proof.
  intros Hh Hm. destruct paths as [o n]. simpl. rewrite Hh, Hm.
  now rewrite filePathOf_effectivePath.
Qed.

(** With the flag set, nothing is kept as long as every recognised header
    is ignored. *)
Lemma scan_all_ignored (ls : list str) :
  Forall (fun l => recognisedHeader l = true ->
                   opensIgnoredSection isPathIgnored l = true) ls ->
  (scan isPathIgnored true ls).1 = [].
Proof.
  induction 1 as [|line ls Hl _ IH]; [reflexivity|]. simpl.
  unfold recognisedHeader, opensIgnoredSection in Hl.
  destruct (isFileHeader line); [destruct (matchHeader line) as [[o n]|]|];
    simpl in *; try exact IH.
  rewrite filePathOf_effectivePath, (Hl eq_refl). simpl. exact IH.
Qed.

End FilterMore.

(** X1. Filtering is idempotent: filtering a filtered text again changes
    nothing, for every predicate and every text. *)
Theorem filter_idempotent (isPathIgnored : str -> bool) (d : str) :
  filterIgnoredFilesFromDiff isPathIgnored (filterIgnoredFilesFromDiff isPathIgnored d)
  = filterIgnoredFilesFromDiff isPathIgnored d.
Proof.
  unfold filterIgnoredFilesFromDiff at 1.
  rewrite split_filtered. simpl.
  unfold filterIgnoredFilesFromDiff.
  destruct (filterLines isPathIgnored (split d)) as [|l ls] eqn:E; [reflexivity|].
  rewrite <- E. f_equal.
  rewrite (filterLines_scan isPathIgnored (split d)).
  rewrite filterLines_scan. apply scan_kept_fixed.
Qed.

(** X5. The lines kept are a subsequence of the lines read: the filter
    keeps the order, and it neither changes nor adds a line. *)
Theorem filter_keeps_order (isPathIgnored : str -> bool) (lines : list str) :
  sublist (filterLines isPathIgnored lines) lines.
Proof.
  rewrite filterLines_scan. apply scan_sublist.
Qed.

(** X4. A text without a marker line is returned unchanged, whatever the
    predicate, and the predicate is never asked. *)
Theorem filter_without_markers (isPathIgnored : str -> bool) (d : str) :
  Forall (fun l => isFileHeader l = false) (split d) ->
  filterIgnoredFilesFromDiff isPathIgnored d = d
  /\ ignoreQueries isPathIgnored d = [].
Proof.
  intros H. split.
  - unfold filterIgnoredFilesFromDiff.
    rewrite filterLines_scan, (proj1 (scan_body isPathIgnored false _ H)).
    apply join_split.
  - rewrite ignoreQueries_scan, scan_queries.
    induction H as [|l ls Hl _ IH]; [reflexivity|].
    rewrite sectionPaths_cons, Hl. exact IH.
Qed.

Lemma filter_without_markers_witness :
  let d := lit "some text" ++ LF :: lit "+ diff --git a/x b/x" in
  filterIgnoredFilesFromDiff (fun _ => true) d = d.
Proof.
  intros d.
  apply (filter_without_markers (fun _ => true) d).
  repeat constructor.
Defined.

(** X3. The section of a recognised header is decided by its own path,
    whatever came before: it is dropped whole when the path is ignored and
    kept unchanged otherwise, and the loop goes on after it with the answer
    as its flag. *)
Theorem filter_recognised_header (isPathIgnored : str -> bool)
    (pre : list str) (h : str) (paths : str * str) (body rest : list str) :
  isFileHeader h = true ->
  matchHeader h = Some paths ->
  Forall (fun l => isFileHeader l = false) body ->
  filterLines isPathIgnored (pre ++ h :: body ++ rest) =
    filterLines isPathIgnored pre
    ++ (if isPathIgnored (effectivePath paths) then [] else h :: body)
    ++ filtered (filterLoop isPathIgnored (pre ++ h :: body ++ rest)
         {| idx := length pre + S (length body);
            skipCurrentFile := isPathIgnored (effectivePath paths);
            filtered := []; queried := [] |}).
Proof.
  intros Hh Hm Hb.
  rewrite (proj1 (filterLoop_scan _ _ _)). simpl.
  replace (drop (length pre + S (length body)) (pre ++ h :: body ++ rest))
    with rest.
  2:{ rewrite drop_app_add. simpl. now rewrite drop_app_length. }
  rewrite !filterLines_scan, scan_app.
  cbn [fst]. rewrite (scan_recognised _ _ h paths _ Hh Hm). cbn [fst].
  rewrite scan_app. cbn [fst].
  destruct (scan_body isPathIgnored (isPathIgnored (effectivePath paths)) body Hb)
    as [-> ->].
  f_equal. now destruct (isPathIgnored (effectivePath paths)).
Qed.

Lemma filter_recognised_header_witness :
  let ignored := fun p => eqb p (lit "b.log") in
  let pre := [lit "diff --git a/b.log b/b.log"; lit "-y"] in
  let h := lit "diff --git a/a.txt b/a.txt" in
  filterLines ignored (pre ++ h :: [lit "+x"] ++ [lit "diff --git weird"; lit "z"])
  = [h; lit "+x"; lit "diff --git weird"; lit "z"].
Proof.
  intros ignored pre h.
  rewrite (filter_recognised_header ignored pre h (lit "a.txt", lit "a.txt")
             [lit "+x"] [lit "diff --git weird"; lit "z"]
             eq_refl eq_refl ltac:(repeat constructor)).
  reflexivity.
Defined.

(** X2. The filter is stable: a text with an ignored section and the text
    without it give the same lines, when the section is the last one or
    the next header is a recognised one. *)
Theorem filter_stable (isPathIgnored : str -> bool)
    (pre : list str) (h : str) (paths : str * str) (body rest : list str) :
  isFileHeader h = true ->
  matchHeader h = Some paths ->
  isPathIgnored (effectivePath paths) = true ->
  Forall (fun l => isFileHeader l = false) body ->
  (rest = [] \/ exists h' rest', rest = h' :: rest' /\ recognisedHeader h' = true) ->
  filterLines isPathIgnored (pre ++ h :: body ++ rest)
  = filterLines isPathIgnored (pre ++ rest).
Proof.
  intros Hh Hm Hi Hb Hrest.
  rewrite !filterLines_scan, !scan_app. cbn [fst]. f_equal.
  rewrite (scan_recognised _ _ h paths _ Hh Hm), Hi. cbn [fst keep app].
  rewrite scan_app. cbn [fst].
  destruct (scan_body isPathIgnored true body Hb) as [-> ->]. cbn [app].
  destruct Hrest as [->|(h' & rest' & -> & Hr)]; [reflexivity|].
  unfold recognisedHeader in Hr. apply andb_true_iff in Hr. destruct Hr as [Hh' Hm'].
  destruct (matchHeader h') as [paths'|] eqn:Em'; [|discriminate].
  now rewrite !(scan_recognised _ _ h' paths' _ Hh' Em').
Qed.

Lemma filter_stable_witness :
  let ignored := fun p => eqb p (lit "b.log") in
  let pre := [lit "diff --git a/a.txt b/a.txt"; lit "+x"] in
  let rest := [lit "diff --git a/c.txt b/c.txt"; lit "+z"] in
  filterLines ignored (pre ++ lit "diff --git a/b.log b/b.log" :: [lit "-y"] ++ rest)
  = filterLines ignored (pre ++ rest).
Proof.
  intros ignored pre rest.
  apply (filter_stable ignored pre (lit "diff --git a/b.log b/b.log")
           (lit "b.log", lit "b.log") [lit "-y"] rest).
  - reflexivity.
  - reflexivity.
  - reflexivity.
  - repeat constructor.
  - right. eexists _, _. split; reflexivity.
Defined.

(** ** The filter and the test for an empty diff *)

Lemma trimStart_snoc (s : str) (c : char) :
  isSpace c = false -> Number.trimStart (s ++ [c]) <> [].
Proof.
  intros Hc. induction s as [|x s IH]; simpl.
  - now rewrite Hc.
  - destruct (isSpace x); [exact IH|discriminate].
Qed.

(** A text that starts with something else than white space is not blank. *)
Lemma trim_nonblank (c : char) (s : str) :
  isSpace c = false -> trim (c :: s) <> [].
Proof.
  intros Hc. unfold trim. simpl Number.trimStart at 2. rewrite Hc. simpl rev at 2.
  destruct (Number.trimStart (rev s ++ [c])) as [|x t] eqn:E.
  - now apply trimStart_snoc in E.
  - simpl. intros H. apply app_eq_nil in H. destruct H; discriminate.
Qed.

Lemma render_empty (chalk : Colour -> str -> str) (options : GitDiffOptions) :
  render chalk [] options = [].
Proof. unfold render. now destruct (negb (truthyFlag (color options))). Qed.

(** X6. When the diff starts with a recognised header and every recognised
    header in it is ignored, the text is not blank for [checkDiff], which
    therefore prints the heading, and what is printed under it is the empty
    text. *)
Theorem all_sections_ignored (chalk : Colour -> str -> str)
    (isPathIgnored : str -> bool) (d h : str) (rest : list str)
    (options : GitDiffOptions) :
  split d = h :: rest ->
  opensIgnoredSection isPathIgnored h = true ->
  Forall (fun l => recognisedHeader l = true ->
                   opensIgnoredSection isPathIgnored l = true) rest ->
  diffIsBlank d = false
  /\ formatDiffOutput chalk isPathIgnored d options = [].
Proof.
  intros Hd Hh Hrest. split.
  - apply eqb_neq.
    assert (Hs : isFileHeader h = true).
    { unfold opensIgnoredSection in Hh. now apply andb_true_iff in Hh. }
    pose proof (join_split d) as Hj. rewrite Hd in Hj.
    destruct h as [|c h']; [discriminate|].
    assert (Hc : c = 100).
    { unfold isFileHeader in Hs. simpl in Hs.
      apply andb_true_iff in Hs. now apply N.eqb_eq. }
    subst c. rewrite <- Hj.
    destruct rest; simpl; now apply trim_nonblank.
  - unfold formatDiffOutput, filterIgnoredFilesFromDiff.
    rewrite filterLines_scan, Hd.
    unfold opensIgnoredSection in Hh. apply andb_true_iff in Hh.
    destruct Hh as [Hs Hm].
    destruct (matchHeader h) as [paths|] eqn:Em; [|discriminate].
    rewrite (scan_recognised _ _ h paths _ Hs Em), Hm. cbn [fst keep app].
    rewrite (scan_all_ignored _ _ Hrest). apply render_empty.
Qed.

Lemma all_sections_ignored_witness :
  let d := lit "diff --git a/b.log b/b.log" ++ LF :: lit "-y" ++ LF ::
           lit "diff --git a/c.log b/c.log" ++ LF :: lit "+z" in
  let options : GitDiffOptions :=
    {| staged := None; unstaged := None; all := None; branch := None;
       commit := None; file := None; context := Some (Number.Int 3);
       color := Some true; wordDiff := None |} in
  diffIsBlank d = false
  /\ formatDiffOutput (fun _ line => line) (fun _ => true) d options = [].
Proof.
  intros d options.
  apply (all_sections_ignored (fun _ line => line) (fun _ => true) d
           (lit "diff --git a/b.log b/b.log")
           [lit "-y"; lit "diff --git a/c.log b/c.log"; lit "+z"] options).
  - reflexivity.
  - reflexivity.
  - repeat (constructor;
            [first [intros _; reflexivity | intros H; discriminate H]|]).
    constructor.
Defined.

(** ** The header pattern *)

Section PatternFacts.

Lemma stripPrefix_app (p r : str) : stripPrefix p (p ++ r) = Some r.
Proof.
  induction p as [|c p IH]; [reflexivity|]. simpl. now rewrite N.eqb_refl.
Qed.

Lemma stripPrefix_Some (p s r : str) : stripPrefix p s = Some r -> s = p ++ r.
Proof.
  revert s. induction p as [|c p IH]; intros s H; simpl in *.
  - now inversion H.
  - destruct s as [|d s]; [discriminate|].
    destruct (d =? c) eqn:E; [|discriminate].
    apply N.eqb_eq in E. subst d. now rewrite (IH _ H).
Qed.

Lemma lazyToEnd_Some (r g : str) :
  lazyToEnd r = Some g ->
  g = r /\ r <> [] /\ Forall (fun c => isDot c = true) r.
Proof.
  revert g. induction r as [|c r IH]; intros g H; [discriminate|].
  simpl in H. destruct (isDot c) eqn:Ec; [|discriminate].
  destruct r as [|c' r'].
  - inversion H. repeat split; [discriminate|repeat constructor; assumption].
  - destruct (lazyToEnd (c' :: r')) as [g'|] eqn:E; [|discriminate].
    inversion H. destruct (IH g' eq_refl) as (-> & _ & Hall).
    repeat split; [discriminate|now constructor].
Qed.

Lemma lazyToEnd_all (r : str) :
  r <> [] -> Forall (fun c => isDot c = true) r -> lazyToEnd r = Some r.
Proof.
  intros Hne H. induction H as [|c r Hc Hr IH]; [congruence|].
  simpl. rewrite Hc. destruct r as [|c' r']; [reflexivity|].
  now rewrite IH.
Qed.

Lemma spacesThenDest_Some (r g : str) :
  spacesThenDest r = Some g ->
  exists ws, Forall (fun c => isSpace c = true) ws /\ r = ws ++ lit "b/" ++ g
             /\ g <> [] /\ Forall (fun c => isDot c = true) g.
Proof.
  assert (Hd : forall r, destPart r = Some g ->
    exists ws, Forall (fun c => isSpace c = true) ws /\ r = ws ++ lit "b/" ++ g
               /\ g <> [] /\ Forall (fun c => isDot c = true) g).
  { intros r0 H. unfold destPart in H.
    destruct (stripPrefix (lit "b/") r0) as [r'|] eqn:E; [|discriminate].
    apply stripPrefix_Some in E. apply lazyToEnd_Some in H.
    destruct H as (-> & Hne & Hall). exists []. now repeat split. }
  induction r as [|c r IH]; intros H; simpl in H; [now apply Hd|].
  destruct (isSpace c) eqn:Ec; [|now apply Hd].
  destruct (spacesThenDest r) as [g'|] eqn:E; [|now apply Hd].
  inversion H; subst g'.
  destruct (IH eq_refl) as (ws & Hws & -> & Hne & Hall).
  exists (c :: ws). repeat split; try assumption. now constructor.
Qed.

Lemma groups_Some (r a b : str) :
  groups r = Some (a, b) ->
  exists ws, r = a ++ ws ++ lit "b/" ++ b
    /\ a <> [] /\ b <> [] /\ ws <> []
    /\ Forall (fun c => isSpace c = true) ws
    /\ Forall (fun c => isDot c = true) a
    /\ Forall (fun c => isDot c = true) b.
Proof.
  revert a. induction r as [|c r IH]; intros a H; [discriminate|].
  simpl in H. destruct (isDot c) eqn:Ec; [|discriminate].
  destruct (spaces1ThenDest r) as [g2|] eqn:E1.
  - inversion H; subst a g2. unfold spaces1ThenDest in E1.
    destruct r as [|w r']; [discriminate|].
    destruct (isSpace w) eqn:Ew; [|discriminate].
    apply spacesThenDest_Some in E1.
    destruct E1 as (ws & Hws & -> & Hne & Hall).
    exists (w :: ws). repeat split; try easy; repeat constructor; assumption.
  - destruct (groups r) as [[g1 g2]|] eqn:E2; [|discriminate].
    inversion H; subst a g2.
    destruct (IH g1 eq_refl) as (ws & -> & Ha & Hb & Hw & Hws & Hda & Hdb).
    exists ws. repeat split; try easy. now constructor.
Qed.

End PatternFacts.

(** X8. What the pattern finds is in the line: the line ends with the
    marker and [a/], the first path, white space, [b/] and the second path;
    neither path is empty or holds a line terminator. *)
Theorem matchHeader_sound (line a b : str) :
  matchHeader line = Some (a, b) ->
  exists pre ws,
    line = pre ++ diffGitA ++ a ++ ws ++ lit "b/" ++ b
    /\ a <> [] /\ b <> [] /\ ws <> []
    /\ Forall (fun c => isSpace c = true) ws
    /\ Forall (fun c => isDot c = true) a
    /\ Forall (fun c => isDot c = true) b.
Proof.
  induction line as [|c line IH]; intros H.
  - discriminate.
  - cbn [matchHeader] in H.
    destruct (matchAt (c :: line)) as [m|] eqn:E.
    + inversion H; subst m. unfold matchAt in E.
      destruct (stripPrefix diffGitA (c :: line)) as [r|] eqn:Es; [|discriminate].
      apply stripPrefix_Some in Es. apply groups_Some in E.
      destruct E as (ws & -> & Hrest). exists [], ws. split; [exact Es|exact Hrest].
    + destruct (IH H) as (pre & ws & -> & Hrest).
      exists (c :: pre), ws. split; [reflexivity|exact Hrest].
Qed.

Lemma matchHeader_sound_witness :
  exists pre ws,
    lit "diff --git a/src/a.ts   b/src/b.ts"
      = pre ++ diffGitA ++ lit "src/a.ts" ++ ws ++ lit "b/" ++ lit "src/b.ts"
    /\ ws <> [].
Proof.
  destruct (matchHeader_sound (lit "diff --git a/src/a.ts   b/src/b.ts")
              (lit "src/a.ts") (lit "src/b.ts") eq_refl)
    as (pre & ws & H & _ & _ & Hw & _).
  exists pre, ws. split; assumption.
Defined.

Section PatternComplete.

Lemma notSpace_isDot (c : char) : isSpace c = false -> isDot c = true.
Proof.
  unfold isSpace, isDot. intros H. apply orb_false_iff in H.
  destruct H as [_ ->]. reflexivity.
Qed.

Lemma spacesThenDest_run (ws b : str) :
  Forall (fun c => isSpace c = true) ws ->
  b <> [] -> Forall (fun c => isDot c = true) b ->
  spacesThenDest (ws ++ lit "b/" ++ b) = Some b.
Proof.
  intros Hws Hne Hb.
  assert (Hd : destPart (lit "b/" ++ b) = Some b).
  { unfold destPart. rewrite stripPrefix_app. now apply lazyToEnd_all. }
  induction Hws as [|w ws Hw _ IH].
  - simpl app at 1. change (lit "b/" ++ b) with (98 :: 47 :: b) in *.
    cbn [spacesThenDest]. change (isSpace 98) with false. cbn iota. exact Hd.
  - cbn [app spacesThenDest]. rewrite Hw, IH. reflexivity.
Qed.

(** A path without white space is taken whole by the lazy first group. *)
Lemma groups_canonical (a ws b : str) :
  a <> [] -> Forall (fun c => isSpace c = false) a ->
  ws <> [] -> Forall (fun c => isSpace c = true) ws ->
  b <> [] -> Forall (fun c => isDot c = true) b ->
  groups (a ++ ws ++ lit "b/" ++ b) = Some (a, b).
Proof.
  intros Hne Ha Hwne Hws Hbne Hb.
  induction Ha as [|c a Hc Ha IH]; [congruence|].
  cbn [app groups]. rewrite (notSpace_isDot c Hc).
  destruct a as [|c' a'].
  - cbn [app]. destruct ws as [|w ws']; [congruence|].
    inversion Hws as [|? ? Hw Hws']; subst.
    cbn [app spaces1ThenDest]. rewrite Hw.
    now rewrite (spacesThenDest_run ws' b Hws' Hbne Hb).
  - inversion Ha as [|? ? Hc' _]; subst.
    cbn [app spaces1ThenDest]. rewrite Hc'.
    cbn [app] in IH. rewrite IH by discriminate. reflexivity.
Qed.

End PatternComplete.

(** X7. A header as [git diff] writes it is read back: when the first
    path holds no white space and the second no line terminator, the
    pattern finds exactly the two paths, and the line counts as a
    header. *)
Theorem matchHeader_canonical (a ws b : str) :
  a <> [] -> Forall (fun c => isSpace c = false) a ->
  ws <> [] -> Forall (fun c => isSpace c = true) ws ->
  b <> [] -> Forall (fun c => isDot c = true) b ->
  matchHeader (diffGitA ++ a ++ ws ++ lit "b/" ++ b) = Some (a, b)
  /\ isFileHeader (diffGitA ++ a ++ ws ++ lit "b/" ++ b) = true.
Proof.
  intros Hne Ha Hwne Hws Hbne Hb. split; [|reflexivity].
  assert (Hm : matchAt (diffGitA ++ a ++ ws ++ lit "b/" ++ b) = Some (a, b)).
  { unfold matchAt. rewrite stripPrefix_app. now apply groups_canonical. }
  destruct (diffGitA ++ a ++ ws ++ lit "b/" ++ b) as [|c l] eqn:E;
    [discriminate|].
  cbn [matchHeader]. now rewrite Hm.
Qed.

Lemma matchHeader_canonical_witness :
  matchHeader (diffGitA ++ lit "src/a.ts" ++ lit " " ++ lit "b/" ++ lit "src/a.ts")
  = Some (lit "src/a.ts", lit "src/a.ts").
Proof.
  apply (matchHeader_canonical (lit "src/a.ts") (lit " ") (lit "src/a.ts")).
  - discriminate.
  - repeat constructor.
  - discriminate.
  - repeat constructor.
  - discriminate.
  - repeat constructor.
Defined.

(** A first path with [ b/] inside is cut at the first such place. *)
Example matchHeader_ambiguous :
  matchHeader (lit "diff --git a/x b/y b/x b/y") = Some (lit "x", lit "y b/x b/y").
Proof. reflexivity. Qed.

(** ** Numbers on the command line *)

Section DecimalFacts.

Import Number.

(** The digits of a decimal numeral, most significant first. *)
Fixpoint digitsOf (d : Decimal.uint) : list N :=
  match d with
  | Decimal.Nil => []
  | Decimal.D0 d => 0 :: digitsOf d
  | Decimal.D1 d => 1 :: digitsOf d
  | Decimal.D2 d => 2 :: digitsOf d
  | Decimal.D3 d => 3 :: digitsOf d
  | Decimal.D4 d => 4 :: digitsOf d
  | Decimal.D5 d => 5 :: digitsOf d
  | Decimal.D6 d => 6 :: digitsOf d
  | Decimal.D7 d => 7 :: digitsOf d
  | Decimal.D8 d => 8 :: digitsOf d
  | Decimal.D9 d => 9 :: digitsOf d
  end.

Lemma lit_uint (d : Decimal.uint) :
  lit (NilEmpty.string_of_uint d) = digitChar <$> digitsOf d.
Proof.
  induction d; simpl; try reflexivity;
    unfold lit in *; simpl; now rewrite IHd.
Qed.

Lemma digitsOf_lt (d : Decimal.uint) : Forall (fun v => v < 10) (digitsOf d).
Proof. induction d; simpl; constructor; (lia || assumption). Qed.

Lemma mathInt_acc (d : Decimal.uint) (acc : positive) :
  fold_left (fun a x => a * 10 + x) (digitsOf d) (Npos acc)
  = Npos (Pos.of_uint_acc d acc).
Proof.
  revert acc. induction d; intros acc; simpl; try reflexivity;
    rewrite <- IHd; f_equal; lia.
Qed.

Lemma mathInt_uint (d : Decimal.uint) : mathInt 10 (digitsOf d) = Pos.of_uint d.
Proof.
  unfold mathInt. induction d; simpl; try reflexivity; try exact IHd;
    apply mathInt_acc.
Qed.

Lemma digit_cases (v : N) :
  v < 10 -> v = 0 \/ v = 1 \/ v = 2 \/ v = 3 \/ v = 4 \/ v = 5 \/ v = 6
            \/ v = 7 \/ v = 8 \/ v = 9.
Proof. lia. Qed.

Lemma radixDigit_digitChar (v : N) : v < 10 -> radixDigit 10 (digitChar v) = Some v.
Proof.
  intros H. apply digit_cases in H.
  repeat (destruct H as [->|H]; [reflexivity|]). subst. reflexivity.
Qed.

Lemma digitsPrefix_digits (ds : list N) :
  Forall (fun v => v < 10) ds -> digitsPrefix 10 (digitChar <$> ds) = ds.
Proof.
  induction 1 as [|v ds Hv _ IH]; [reflexivity|].
  cbn [fmap list_fmap digitsPrefix]. rewrite (radixDigit_digitChar v Hv).
  f_equal. exact IH.
Qed.

(** A digit is no white space, no sign, and not the [x] of a prefix. *)
Lemma digitChar_plain (v : N) :
  v < 10 ->
  isSpace (digitChar v) = false
  /\ (digitChar v =? 45) = false /\ (digitChar v =? 43) = false
  /\ (digitChar v =? 120) || (digitChar v =? 88) = false.
Proof.
  intros H. apply digit_cases in H.
  repeat (destruct H as [->|H]; [repeat split|]). subst. repeat split.
Qed.

Lemma stripHexPrefix_digits (ds : list N) :
  Forall (fun v => v < 10) ds ->
  stripHexPrefix (digitChar <$> ds) = (10, digitChar <$> ds).
Proof.
  intros H. destruct H as [|v ds Hv Hds]; [reflexivity|].
  destruct Hds as [|w ds Hw Hds]; [reflexivity|].
  cbn [fmap list_fmap stripHexPrefix].
  destruct (digitChar_plain w Hw) as (_ & _ & _ & ->).
  now rewrite andb_false_r.
Qed.

Lemma trimStart_digits (ds : list N) :
  Forall (fun v => v < 10) ds -> trimStart (digitChar <$> ds) = digitChar <$> ds.
Proof.
  destruct 1 as [|v ds Hv _]; [reflexivity|].
  cbn [fmap list_fmap trimStart].
  now destruct (digitChar_plain v Hv) as (-> & _).
Qed.

Lemma stripSign_digits (ds : list N) :
  Forall (fun v => v < 10) ds -> stripSign (digitChar <$> ds) = (1%Z, digitChar <$> ds).
Proof.
  destruct 1 as [|v ds Hv _]; [reflexivity|].
  cbn [fmap list_fmap stripSign].
  now destruct (digitChar_plain v Hv) as (_ & -> & -> & _).
Qed.

(** [parseInt] reads a string of decimal digits as the double nearest to
    its value, with or without a minus sign. *)
Lemma parseInt_decimal (ds : list N) :
  ds <> [] -> Forall (fun v => v < 10) ds ->
  parseInt (digitChar <$> ds) = ofMathInt 1 (mathInt 10 ds)
  /\ parseInt (45 :: (digitChar <$> ds)) = ofMathInt (-1) (mathInt 10 ds).
Proof.
  intros Hne H. split.
  - unfold parseInt.
    rewrite (trimStart_digits ds H), (stripSign_digits ds H). cbv beta iota.
    rewrite (stripHexPrefix_digits ds H). cbv beta iota.
    rewrite (digitsPrefix_digits ds H).
    destruct ds; [congruence|reflexivity].
  - unfold parseInt.
    change (trimStart (45 :: (digitChar <$> ds))) with (45 :: (digitChar <$> ds)).
    change (stripSign (45 :: (digitChar <$> ds))) with ((-1)%Z, digitChar <$> ds).
    cbv beta iota.
    rewrite (stripHexPrefix_digits ds H). cbv beta iota.
    rewrite (digitsPrefix_digits ds H).
    destruct ds; [congruence|reflexivity].
Qed.

(** Up to [2^53] every integer is a double. *)
Lemma ofMathInt_safe (sign : Z) (m : N) :
  m <= two53 -> ofMathInt sign m = Int (sign * Z.of_N m).
Proof.
  intros H. unfold ofMathInt, roundDouble.
  apply N.leb_le in H. now rewrite H.
Qed.

Lemma textOfDouble_safe (m : N) : m <= two53 -> textOfDouble m = decimal m.
Proof.
  intros H. unfold textOfDouble. apply N.leb_le in H. now rewrite H.
Qed.

Lemma to_uint_nonnil (p : positive) : Pos.to_uint p <> Decimal.Nil.
Proof.
  intros H. pose proof (DecimalPos.Unsigned.of_to p) as E.
  rewrite H in E. discriminate.
Qed.

(** A normalised numeral has no leading zero. *)
Lemma lead_digit (u : Decimal.uint) :
  u <> Decimal.Nil -> u = Decimal.unorm u ->
  match digitsOf u with
  | [] => False
  | [_] => True
  | v :: _ => v <> 0
  end.
Proof.
  intros Hnil Hn.
  destruct u as [|u1|u1|u1|u1|u1|u1|u1|u1|u1|u1]; try congruence;
    cbn [digitsOf]; try (destruct (digitsOf u1); [exact I|discriminate]).
  destruct u1 as [|u2|u2|u2|u2|u2|u2|u2|u2|u2|u2] eqn:E; [exact I|..];
    exfalso; rewrite DecimalFacts.unorm_D0 in Hn;
    rewrite <- E in Hn;
    assert (Hlen : (Decimal.nb_digits (Decimal.unorm u1)
                    <= Decimal.nb_digits u1)%nat)
      by (apply DecimalFacts.nb_digits_unorm; subst u1; discriminate);
    rewrite <- Hn in Hlen; simpl in Hlen; lia.
Qed.

(** The decimal numeral of a natural number: its digits, their value, and
    no leading zero. *)
Lemma decimal_digits (m : N) :
  decimal m = digitChar <$> digitsOf (N.to_uint m)
  /\ mathInt 10 (digitsOf (N.to_uint m)) = m
  /\ match digitsOf (N.to_uint m) with
     | [] => False
     | [_] => True
     | v :: _ => v <> 0
     end.
Proof.
  unfold decimal. destruct m as [|p].
  - repeat split.
  - cbn [N.to_uint]. split; [|split].
    + rewrite <- lit_uint. pose proof (to_uint_nonnil p).
      now destruct (Pos.to_uint p).
    + rewrite mathInt_uint. apply DecimalPos.Unsigned.of_to.
    + apply lead_digit; [apply to_uint_nonnil|].
      pose proof (DecimalPos.Unsigned.to_of (Pos.to_uint p)) as Hn.
      rewrite DecimalPos.Unsigned.of_to in Hn. exact Hn.
Qed.

Lemma fold_decimalValue (ds : list N) (acc : N) :
  fold_left (fun a x => a * 10 + x) ds acc
  = acc * 10 ^ N.of_nat (length ds) + decimalValue ds.
Proof.
  revert acc. induction ds as [|d ds IH]; intros acc.
  - simpl. lia.
  - cbn [fold_left decimalValue length]. rewrite IH.
    rewrite Nat2N.inj_succ, N.pow_succ_r'. lia.
Qed.

Lemma mathInt_decimalValue (ds : list N) : mathInt 10 ds = decimalValue ds.
Proof. unfold mathInt. rewrite fold_decimalValue. lia. Qed.

(** Up to [2^53] a number is printed as its decimal numeral. *)
Lemma toString_safe (z : Z) :
  (Z.abs z <= 9007199254740992)%Z -> decimalNumeral z (toString (Int z)).
Proof.
  intros Hz. exists (digitsOf (N.to_uint (Z.abs_N z))).
  destruct (decimal_digits (Z.abs_N z)) as (Hd & Hv & Hlead).
  split; [|split; [|split]].
  - cbn [toString]. rewrite textOfDouble_safe, Hd; [reflexivity|].
    unfold two53. lia.
  - apply digitsOf_lt.
  - exact Hlead.
  - rewrite <- mathInt_decimalValue, Hv. lia.
Qed.

(** Up to [2^53] what is printed is read back. *)
Lemma parseInt_toString_safe (z : Z) :
  (Z.abs z <= 9007199254740992)%Z -> parseInt (toString (Int z)) = Int z.
Proof.
  intros Hz.
  destruct (decimal_digits (Z.abs_N z)) as (Hd & Hv & Hlead).
  assert (Hne : digitsOf (N.to_uint (Z.abs_N z)) <> [])
    by (now destruct (digitsOf (N.to_uint (Z.abs_N z)))).
  assert (Hs : Z.abs_N z <= two53) by (unfold two53; lia).
  cbn [toString]. rewrite (textOfDouble_safe _ Hs), Hd.
  destruct (z <? 0)%Z eqn:Eneg.
  - apply Z.ltb_lt in Eneg. cbn [app].
    rewrite (proj2 (parseInt_decimal _ Hne (digitsOf_lt _))), Hv.
    rewrite (ofMathInt_safe _ _ Hs). f_equal. lia.
  - apply Z.ltb_ge in Eneg. cbn [app].
    rewrite (proj1 (parseInt_decimal _ Hne (digitsOf_lt _))), Hv.
    rewrite (ofMathInt_safe _ _ Hs). f_equal. lia.
Qed.

(** [parseInt] never gives [NaN] once it has read a digit. *)
Lemma ofMathInt_number (sign : Z) (m : N) : isNaN (ofMathInt sign m) = false.
Proof. unfold ofMathInt. now destruct (roundDouble m). Qed.

End DecimalFacts.

(** X9. A number on the command line is read back as written: for every
    integer up to [2^53] in absolute value, the context that the action
    resolves from the text of the number is that number. *)
Theorem context_round_trip (n : Z) :
  (Z.abs n <= 9007199254740992)%Z ->
  resolveContext (Some (Number.toString (Number.Int n))) = Number.Int n.
Proof.
  intros Hn. unfold resolveContext. cbn [interpolate].
  now rewrite (parseInt_toString_safe n Hn).
Qed.

Lemma context_round_trip_witness :
  resolveContext (Some (Number.toString (Number.Int (-9007199254740992))))
  = Number.Int (-9007199254740992).
Proof.
  apply (context_round_trip (-9007199254740992)). vm_compute. discriminate.
Defined.

(** A number followed by other text is read up to that text: the option
    is not rejected. *)
Section LeadingDigits.

Import Number.

Lemma digitsPrefix_leading (ds : list N) (c : char) (rest : str) :
  Forall (fun v => v < 10) ds -> isDecimalDigit c = false ->
  digitsPrefix 10 ((digitChar <$> ds) ++ c :: rest) = ds.
Proof.
  intros H Hc. induction H as [|v ds Hv _ IH].
  - cbn [fmap list_fmap app digitsPrefix]. now rewrite radixDigit_decimal.
  - cbn [fmap list_fmap app digitsPrefix]. rewrite (radixDigit_digitChar v Hv).
    f_equal. exact IH.
Qed.

Lemma stripHexPrefix_leading (ds : list N) (c : char) (rest : str) :
  ds <> [] -> Forall (fun v => v < 10) ds -> c <> 120 -> c <> 88 ->
  stripHexPrefix ((digitChar <$> ds) ++ c :: rest)
  = (10, (digitChar <$> ds) ++ c :: rest).
Proof.
  intros Hne H Hx HX. destruct H as [|v ds Hv Hds]; [congruence|].
  destruct Hds as [|w ds Hw Hds]; cbn [fmap list_fmap app stripHexPrefix].
  - apply N.eqb_neq in Hx, HX. rewrite Hx, HX. now rewrite andb_false_r.
  - destruct (digitChar_plain w Hw) as (_ & _ & _ & ->).
    now rewrite andb_false_r.
Qed.

End LeadingDigits.

(** X18. Text after a number is dropped without an error: for digits
    followed by a character that is no digit (and not the [x] of a
    hexadecimal prefix), the action resolves the context to the double
    nearest to the value of the digits ([Infinity] beyond the largest
    double), which is that value itself up to [2^53]. *)
Theorem context_leading_digits (ds : list N) (c : char) (rest : str) :
  ds <> [] -> Forall (fun v => v < 10) ds ->
  isDecimalDigit c = false -> c <> 120 -> c <> 88 ->
  resolveContext (Some ((digitChar <$> ds) ++ c :: rest))
    = Number.ofMathInt 1 (decimalValue ds)
  /\ (decimalValue ds <= 9007199254740992 ->
      resolveContext (Some ((digitChar <$> ds) ++ c :: rest))
        = Number.Int (Z.of_N (decimalValue ds))).
Proof.
  intros Hne H Hc Hx HX.
  assert (Hr : resolveContext (Some ((digitChar <$> ds) ++ c :: rest))
               = Number.ofMathInt 1 (decimalValue ds)).
  { unfold resolveContext, Number.parseInt. cbn [interpolate].
    assert (Ht : Number.trimStart ((digitChar <$> ds) ++ c :: rest)
                 = (digitChar <$> ds) ++ c :: rest).
    { destruct H as [|v ds Hv _]; [congruence|].
      cbn [fmap list_fmap app Number.trimStart].
      now destruct (digitChar_plain v Hv) as (-> & _). }
    assert (Hs : Number.stripSign ((digitChar <$> ds) ++ c :: rest)
                 = (1%Z, (digitChar <$> ds) ++ c :: rest)).
    { destruct H as [|v ds Hv _]; [congruence|].
      cbn [fmap list_fmap app Number.stripSign].
      now destruct (digitChar_plain v Hv) as (_ & -> & -> & _). }
    rewrite Ht, Hs. cbv beta iota.
    rewrite (stripHexPrefix_leading ds c rest Hne H Hx HX). cbv beta iota.
    rewrite (digitsPrefix_leading ds c rest H Hc).
    rewrite <- mathInt_decimalValue.
    destruct ds; [congruence|]. now rewrite ofMathInt_number. }
  split; [exact Hr|].
  intros Hsafe. rewrite Hr, ofMathInt_safe by exact Hsafe. f_equal. lia.
Qed.

Lemma context_leading_digits_witness :
  resolveContext (Some (lit "12px")) = Number.Int 12.
Proof.
  apply (proj2 (context_leading_digits [1; 2] 112 (lit "x")
                  ltac:(discriminate) ltac:(repeat constructor)
                  eq_refl ltac:(discriminate) ltac:(discriminate))).
  vm_compute. discriminate.
Defined.

(** ** The command, again *)

(** C5. After the mode, the command holds, in this order: the count of
    context lines, always, as the text of the number that the action
    resolved (never [NaN]; its decimal numeral for every integer up to
    [2^53]); the word-level flag, when asked for; the flag that leaves out
    submodules, always; the path restriction, when a file was given. *)
Theorem command_suffix_order (options : CommandLineOptions) :
  diffCommand (diffAction options) =
    fst (selectMode (diffAction options))
    ++ (lit " -U" ++ Number.toString (resolveContext (context options)))
    ++ (if truthyFlag (wordDiff options) then lit " --word-diff=color" else [])
    ++ lit " --ignore-submodules=all"
    ++ (if truthyString (file options) then lit " -- " ++ interpolate (file options)
        else [])
  /\ Number.isNaN (resolveContext (context options)) = false
  /\ (forall z : Z,
        resolveContext (context options) = Number.Int z ->
        (Z.abs z <= 9007199254740992)%Z ->
        decimalNumeral z (Number.toString (resolveContext (context options)))).
Proof.
  split; [|split].
  - unfold diffCommand. simpl context. simpl wordDiff. simpl file.
    destruct (truthyFlag (wordDiff options)), (truthyString (file options));
      rewrite <- ?app_assoc, ?app_nil_r; reflexivity.
  - unfold resolveContext.
    now destruct (Number.parseInt (interpolate (context options))).
  - intros z -> Hz. now apply toString_safe.
Qed.

(** The option [--context 10] with a file: the count is "10". *)
Lemma command_suffix_order_witness :
  let options : CommandLineOptions :=
    {| staged := Some true; unstaged := None; all := None; branch := None;
       commit := None; file := Some (lit "src/a.ts");
       context := Some (lit "10"); color := Some true; wordDiff := Some true |} in
  decimalNumeral 10 (Number.toString (resolveContext (context options)))
  /\ diffCommand (diffAction options)
     = lit "git diff --cached -U10 --word-diff=color --ignore-submodules=all -- src/a.ts".
Proof.
  intros options. split; [|reflexivity].
  apply (proj2 (proj2 (command_suffix_order options)) 10%Z).
  - reflexivity.
  - vm_compute. discriminate.
Defined.

(** Beyond [2^53] the count is the text of the double that [parseInt]
    rounds to. *)
Example command_big_context :
  diffCommand (diffAction
    {| staged := None; unstaged := None; all := None; branch := None;
       commit := None; file := None; context := Some (lit "9007199254740993");
       color := Some true; wordDiff := None |})
  = lit "git diff -U9007199254740992 --ignore-submodules=all"
  /\ diffCommand (diffAction
    {| staged := None; unstaged := None; all := None; branch := None;
       commit := None; file := None;
       context := Some (lit "99999999999999999999999");
       color := Some true; wordDiff := None |})
  = lit "git diff -U1e+23 --ignore-submodules=all".
Proof. split; vm_compute; reflexivity. Qed.

(** ** The second command of [checkDiff] *)

(** X10. The line-change summary is asked for the same selection as the
    diff: the second chain picks the query of the first.  The command has
    no context and no word-diff option, and it puts its flags after the
    file, behind the [--] separator. *)
Theorem shortstat_same_selection (options : GitDiffOptions) :
  shortstatCommand options =
    fst (selectMode options)
    ++ (if truthyString (file options) then lit " -- " ++ interpolate (file options)
        else [])
    ++ lit " --shortstat --ignore-submodules=all".
Proof.
  unfold shortstatCommand, selectMode.
  destruct (truthyFlag (staged options)), (truthyFlag (unstaged options)),
    (truthyFlag (all options)), (truthyString (branch options)),
    (truthyString (commit options)), (truthyString (file options));
    cbn [fst]; rewrite <- ?app_assoc; reflexivity.
Qed.

(** ** The counters of the summary *)

Section CounterFacts.

Variable chalk : Colour -> str -> str.

Lemma includes_char (s : str) (c : char) :
  includes s [c] = bool_decide (c ∈ s).
Proof.
  induction s as [|x s IH].
  - reflexivity.
  - cbn [includes startsWith]. rewrite IH.
    replace (startsWith s []) with true by (now destruct s).
    destruct (x =? c) eqn:E; cbn [andb orb].
    + apply N.eqb_eq in E. subst x. symmetry. apply bool_decide_eq_true_2.
      apply elem_of_cons. now left.
    + apply N.eqb_neq in E.
      apply bool_decide_ext. rewrite elem_of_cons. intuition congruence.
Qed.

Lemma includes_state (fileStatus : str) (c : char) :
  includes (substring fileStatus 0 2) [c] = hasState c fileStatus.
Proof. unfold substring, hasState. apply includes_char. Qed.

(** A code that is "??" holds no state letter. *)
Lemma untracked_no_state (fileStatus : str) (c : char) :
  eqb (substring fileStatus 0 2) (lit "??") = true -> c <> 63 ->
  hasState c fileStatus = false.
Proof.
  intros H Hc. apply eqb_eq in H.
  change (take 2 fileStatus = [63; 63]) in H.
  unfold hasState. rewrite H. apply bool_decide_eq_false_2.
  intros Hin. apply elem_of_cons in Hin. destruct Hin as [->|Hin]; [congruence|].
  apply elem_of_cons in Hin. destruct Hin as [->|Hin]; [congruence|].
  now apply not_elem_of_nil in Hin.
Qed.

(** What one line adds to each counter. *)
Lemma classify_counters (s : Summary) (l : str) :
  counters (classify chalk s l) =
    [modifiedCount s + indicator (isModified l);
     addedCount s + indicator (isAdded l);
     deletedCount s + indicator (isDeleted l);
     renamedCount s + indicator (isRenamed l);
     unmergedCount s + indicator (isUnmerged l);
     untrackedCount s + indicator (isUntracked l)]%nat.
Proof.
  unfold classify, counters, isModified, isAdded, isDeleted, isRenamed,
    isUnmerged, isUntracked.
  change (lit "M") with [77]. change (lit "A") with [65].
  change (lit "D") with [68]. change (lit "R") with [82].
  change (lit "U") with [85].
  rewrite !includes_state.
  destruct (eqb (substring l 0 2) (lit "??")) eqn:Eu.
  - rewrite !(untracked_no_state l _ Eu) by discriminate.
    change (eqb (take 2 l) (lit "??") = true) in Eu. rewrite Eu. simpl.
    repeat f_equal; lia.
  - change (eqb (take 2 l) (lit "??") = false) in Eu. rewrite Eu.
    destruct (hasState 77 l), (hasState 65 l), (hasState 68 l),
      (hasState 82 l), (hasState 85 l); simpl; repeat f_equal; lia.
Qed.

(** A line is printed when it is counted, and only then. *)
Lemma classify_console (s : Summary) (l : str) :
  (length (console (classify chalk s l)) + sum_list (counters s)
   = length (console s) + sum_list (counters (classify chalk s l)))%nat.
Proof.
  unfold classify, counters.
  repeat match goal with |- context [if ?b then _ else _] => destruct b end;
    simpl; rewrite ?length_app; simpl; lia.
Qed.

Lemma countLines_cons (test : str -> bool) (l : str) (ls : list str) :
  countLines test (l :: ls) = (indicator (test l) + countLines test ls)%nat.
Proof. unfold countLines. simpl. now destruct (test l). Qed.

Lemma fold_classify (status : list str) (s : Summary) :
  counters (fold_left (classify chalk) status s) =
    [modifiedCount s + countLines isModified status;
     addedCount s + countLines isAdded status;
     deletedCount s + countLines isDeleted status;
     renamedCount s + countLines isRenamed status;
     unmergedCount s + countLines isUnmerged status;
     untrackedCount s + countLines isUntracked status]%nat
  /\ (length (console (fold_left (classify chalk) status s))
      + sum_list (counters s)
      = length (console s)
        + sum_list (counters (fold_left (classify chalk) status s)))%nat
  /\ (sum_list (counters (fold_left (classify chalk) status s))
      <= sum_list (counters s) + length status)%nat.
Proof.
  revert s. induction status as [|l status IH]; intros s.
  - unfold countLines, counters. simpl. repeat split; try lia.
    repeat f_equal; lia.
  - cbn [fold_left]. destruct (IH (classify chalk s l)) as (Hc & Hl & Hs).
    pose proof (classify_counters s l) as Hc1.
    pose proof (classify_console s l) as Hl1.
    pose proof (proj1 (classify_one_counter chalk s l)) as Hone.
    rewrite !countLines_cons. split; [|split].
    + rewrite Hc. unfold counters in Hc1. injection Hc1 as -> -> -> -> -> ->.
      repeat (apply (f_equal2 cons); [lia|]). reflexivity.
    + lia.
    + simpl length. lia.
Qed.

End CounterFacts.

(** C6, amended. Every status line is tallied under one category at most:
    the first kind, in the order M, A, D, R, U, whose letter is in its
    two-character code (so a line counts as added when the code holds A and
    no M, as deleted when it holds D and neither M nor A, and so on), or
    untracked when the code is "??".  "AD" is tallied as added only, "MD"
    as modified only. *)
Theorem classify_at_most_one_category (chalk : Colour -> str -> str)
    (s : Summary) (fileStatus : str) :
  counters (classify chalk s fileStatus) =
    [modifiedCount s + indicator (isModified fileStatus);
     addedCount s + indicator (isAdded fileStatus);
     deletedCount s + indicator (isDeleted fileStatus);
     renamedCount s + indicator (isRenamed fileStatus);
     unmergedCount s + indicator (isUnmerged fileStatus);
     untrackedCount s + indicator (isUntracked fileStatus)]%nat
  /\ (categoriesTallied chalk fileStatus <= 1)%nat
  /\ (sum_list (counters (classify chalk s fileStatus)) <= S (sum_list (counters s)))%nat
  /\ counters (classify chalk emptySummary (lit "AD gone.txt")) = [0; 1; 0; 0; 0; 0]%nat
  /\ counters (classify chalk emptySummary (lit "MD gone.txt")) = [1; 0; 0; 0; 0; 0]%nat.
Proof.
  destruct (classify_one_counter chalk s fileStatus) as [H1 H2].
  split; [apply classify_counters|].
  repeat split; assumption.
Qed.

(** X11. Each counter of the summary is the number of status lines of its
    kind: a line counts as modified when its code holds M; as added when it
    holds A and no M; and so on in the order M, A, D, R, U; as untracked
    when its code is "??". *)
Theorem summary_counters (chalk : Colour -> str -> str) (status : list str) :
  counters (summarize chalk status) =
    [countLines isModified status; countLines isAdded status;
     countLines isDeleted status; countLines isRenamed status;
     countLines isUnmerged status; countLines isUntracked status].
Proof.
  unfold summarize.
  now rewrite (proj1 (fold_classify chalk status emptySummary)).
Qed.

(** X12. The summary prints one line for each file it counts and none
    else, and it counts no more files than there are status lines: a line
    with another code, such as "C " or "T ", is neither printed nor
    counted. *)
Theorem summary_printed_once (chalk : Colour -> str -> str) (status : list str) :
  length (console (summarize chalk status))
    = sum_list (counters (summarize chalk status))
  /\ (sum_list (counters (summarize chalk status)) <= length status)%nat
  /\ classify chalk emptySummary (lit "C  copy.txt") = emptySummary
  /\ classify chalk emptySummary (lit "T  link") = emptySummary.
Proof.
  unfold summarize.
  destruct (fold_classify chalk status emptySummary) as (_ & Hl & Hs).
  change (sum_list (counters emptySummary)) with 0%nat in Hl, Hs.
  change (length (console emptySummary)) with 0%nat in Hl.
  split; [lia|]. split; [lia|]. split; reflexivity.
Qed.

(** ** The status lines *)

Section TrimFacts.

Import Number.

Lemma trimStart_head (c : char) (s : str) :
  isSpace c = false -> trimStart (c :: s) = c :: s.
Proof. intros H. simpl. now rewrite H. Qed.

Lemma trimStart_spaces (u v : str) :
  Forall (fun c => isSpace c = true) u -> trimStart (u ++ v) = trimStart v.
Proof.
  induction 1 as [|c u Hc _ IH]; [reflexivity|]. simpl. now rewrite Hc.
Qed.

Lemma trimStart_keep (u v : str) :
  Exists (fun c => isSpace c = false) u -> trimStart (u ++ v) = trimStart u ++ v.
Proof.
  induction u as [|c u IH]; intros H; [now inversion H|].
  simpl. destruct (isSpace c) eqn:Ec; [|reflexivity].
  apply IH. inversion H; subst; [congruence|assumption].
Qed.

Lemma trim_blank (s : str) :
  Forall (fun c => isSpace c = true) s -> trim s = [].
Proof.
  intros H. unfold trim.
  rewrite <- (app_nil_r s), (trimStart_spaces s [] H). reflexivity.
Qed.

End TrimFacts.

Lemma filter_Forall {A : Type} (f : A -> bool) (Q : A -> Prop) (l : list A) :
  Forall Q l -> Forall (fun x => Q x /\ f x = true) (List.filter f l).
Proof.
  induction 1 as [|x l Hx _ IH]; simpl; [constructor|].
  destruct (f x) eqn:E; [constructor; auto|assumption].
Qed.

Lemma filter_sublist {A : Type} (f : A -> bool) (l : list A) :
  sublist (List.filter f l) l.
Proof.
  induction l as [|x l IH]; simpl; [constructor|].
  destruct (f x); [now apply sublist_skip|now apply sublist_cons].
Qed.

(** X13. Every line that [getGitStatus] returns is a line of the trimmed
    status text, in the same order; none is empty, none holds a line feed,
    and the file name of none, read from the fourth character, is ignored. *)
Theorem getGitStatus_lines (isPathIgnored : str -> bool) (status : str) :
  Forall (fun line => line <> [] /\ (LF ∉ line)
                      /\ isPathIgnored (drop 3 line) = false)
         (getGitStatus isPathIgnored status)
  /\ sublist (getGitStatus isPathIgnored status) (split (trim status)).
Proof.
  unfold getGitStatus, statusLines. split.
  - pose proof (filter_Forall
        (fun line => negb (isPathIgnored (substringFrom line 3))) _ _
        (filter_Forall (fun line => Nat.ltb 0 (length line)) _ _
           (split_noLF (trim status)))) as H.
    induction H as [|line ls [[Hlf Hlen] Hign] _ IH]; constructor; [|exact IH].
    repeat split.
    + intros ->. discriminate.
    + exact Hlf.
    + unfold substringFrom in Hign. now apply negb_true_iff in Hign.
  - etransitivity; apply filter_sublist.
Qed.

(** X14. A status text of white space only, the empty one included, gives
    no status line, in both copies of the tool: the summary is not
    printed. *)
Theorem getGitStatus_blank (isPathIgnored : str -> bool) (status : str) :
  Forall (fun c => isSpace c = true) status ->
  getGitStatus isPathIgnored status = [] /\ statusLines status = [].
Proof.
  intros H. unfold getGitStatus, statusLines.
  rewrite (trim_blank status H). split; reflexivity.
Qed.

Lemma getGitStatus_blank_witness :
  getGitStatus (fun _ => false) (lit "  " ++ [LF]) = [].
Proof.
  apply (getGitStatus_blank (fun _ => false) (lit "  " ++ [LF])).
  repeat constructor.
Defined.

(** X15. The text of [git status --porcelain] is trimmed as a whole
    before it is cut into lines, so a first line that starts with a space
    (a file changed in the working tree only) loses it: the code and the
    file name are then read one character too far to the right, and the
    name lacks its first character. *)
Theorem status_first_line_shifted (x : char) (r more : str) :
  isSpace x = false ->
  LF ∉ x :: r ->
  (Exists (fun c => isSpace c = false) more
   \/ (Forall (fun c => isSpace c = true) more
       /\ exists r0 c, x :: r = r0 ++ [c] /\ isSpace c = false)) ->
  head (statusLines (32 :: x :: r ++ LF :: more)) = Some (x :: r)
  /\ substringFrom (x :: r) 3 = drop 1 (substringFrom (32 :: x :: r) 3).
Proof.
  intros Hx Hlf Hmore. split.
  2:{ unfold substringFrom. simpl. now rewrite drop_drop. }
  unfold statusLines, trim.
  change (32 :: x :: r ++ LF :: more) with (32 :: (x :: r) ++ LF :: more).
  set (first := x :: r) in *.
  assert (Ht : Number.trimStart (32 :: first ++ LF :: more) = first ++ LF :: more).
  { change (Number.trimStart (32 :: first ++ LF :: more))
      with (Number.trimStart (first ++ LF :: more)).
    subst first. now apply trimStart_head. }
  rewrite Ht, rev_app_distr. cbn [rev].
  destruct Hmore as [Hex|[Hall (r0 & c & Hr & Hc)]].
  - assert (Hex' : Exists (fun c => isSpace c = false) (rev more)).
    { apply Exists_exists in Hex. destruct Hex as (c & Hin & Hc).
      apply Exists_exists. exists c. split; [|exact Hc].
      now apply in_rev in Hin. }
    rewrite trimStart_keep by (apply Exists_app; now left).
    rewrite (trimStart_keep _ _ Hex').
    rewrite !rev_app_distr, rev_involutive. cbn [rev app].
    rewrite split_app_LF by exact Hlf.
    subst first. reflexivity.
  - rewrite trimStart_spaces.
    2:{ apply Forall_app. split; [|repeat constructor].
        apply Forall_forall. intros c' Hin.
        rewrite Forall_forall in Hall. apply Hall.
        now apply in_rev. }
    rewrite Hr, rev_app_distr. cbn [rev app].
    rewrite (trimStart_head c _ Hc).
    change (c :: rev r0) with (rev [c] ++ rev r0).
    rewrite <- rev_app_distr, rev_involutive, <- Hr.
    rewrite split_line by exact Hlf. subst first. reflexivity.
Qed.

(** The output for one file changed in the working tree: the line
    [ M src/a.ts] is read as [M src/a.ts], and the name as [rc/a.ts]. *)
Lemma status_first_line_shifted_witness :
  head (statusLines (lit " M src/a.ts" ++ [LF])) = Some (lit "M src/a.ts")
  /\ substringFrom (lit "M src/a.ts") 3 = lit "rc/a.ts".
Proof.
  destruct (status_first_line_shifted 77 (lit " src/a.ts") []) as [H1 H2].
  - reflexivity.
  - intros H. repeat (apply elem_of_cons in H; destruct H as [H|H]; [discriminate|]).
    now apply not_elem_of_nil in H.
  - right. split; [constructor|].
    exists (lit "M src/a.t"), 115. split; reflexivity.
  - split; [exact H1|reflexivity].
Defined.

(** ** Colours *)

(** X16. On a terminal without colours, where [chalk] returns its
    argument, the formatter returns the text unchanged whatever the colour
    option says. *)
Theorem render_colourless (chalk : Colour -> str -> str)
    (diff : str) (options : GitDiffOptions) :
  (forall c line, chalk c line = line) ->
  render chalk diff options = diff.
Proof.
  intros Hid. unfold render.
  destruct (negb (truthyFlag (color options))); [reflexivity|].
  assert (Hmap : forall ls : list str, colourLine chalk <$> ls = ls).
  { induction ls as [|l ls IH]; [reflexivity|].
    rewrite fmap_cons, IH. f_equal. unfold colourLine.
    repeat match goal with |- context [if ?b then _ else _] => destruct b end;
      now rewrite ?Hid. }
  rewrite Hmap. apply join_split.
Qed.

Lemma render_colourless_witness :
  let options : GitDiffOptions :=
    {| staged := None; unstaged := None; all := None; branch := None;
       commit := None; file := None; context := Some (Number.Int 3);
       color := Some true; wordDiff := None |} in
  let d := lit "diff --git a/a.txt b/a.txt" ++ LF :: lit "+x" in
  render (fun _ line => line) d options = d.
Proof.
  intros options d.
  apply (render_colourless (fun _ line => line) d options).
  reflexivity.
Defined.

(** X17. Colouring keeps the lines: when [chalk] puts no line feed into
    a line, the coloured text has the lines of the input, each one as it
    was or wrapped by [chalk], in the same order. *)
Theorem render_keeps_lines (chalk : Colour -> str -> str)
    (diff : str) (options : GitDiffOptions) :
  (forall c line, LF ∉ line -> LF ∉ chalk c line) ->
  truthyFlag (color options) = true ->
  split (render chalk diff options) = colourLine chalk <$> split diff
  /\ Forall2 (fun line out => out = line \/ exists c, out = chalk c line)
             (split diff) (split (render chalk diff options)).
Proof.
  intros Hchalk Hc.
  assert (Hline : forall l, l = colourLine chalk l
                            \/ exists c, colourLine chalk l = chalk c l).
  { intros l. unfold colourLine.
    repeat match goal with |- context [if ?b then _ else _] => destruct b end;
      eauto. }
  assert (Hs : split (render chalk diff options) = colourLine chalk <$> split diff).
  { unfold render. rewrite Hc. cbn [negb].
    apply split_join.
    - pose proof (split_nonempty diff). now destruct (split diff).
    - pose proof (split_noLF diff) as H.
      induction H as [|l ls Hl _ IH]; [constructor|].
      cbn [fmap list_fmap]. constructor; [|exact IH].
      destruct (Hline l) as [<-|[c ->]]; [exact Hl|now apply Hchalk]. }
  split; [exact Hs|]. rewrite Hs. clear Hs.
  induction (split diff) as [|l ls IH]; [constructor|].
  cbn [fmap list_fmap]. constructor; [|exact IH].
  destruct (Hline l) as [<-|[c ->]]; eauto.
Qed.

Lemma render_keeps_lines_witness :
  let options : GitDiffOptions :=
    {| staged := None; unstaged := None; all := None; branch := None;
       commit := None; file := None; context := Some (Number.Int 3);
       color := Some true; wordDiff := None |} in
  let chalk := fun (c : Colour) (line : str) => 27 :: line ++ [27] in
  length (split (render chalk (lit "+x" ++ LF :: lit "-y" ++ LF :: lit " z") options))
  = 3%nat.
Proof.
  intros options chalk.
  rewrite (proj1 (render_keeps_lines chalk
             (lit "+x" ++ LF :: lit "-y" ++ LF :: lit " z") options
             ltac:(intros c line H Hin;
                   apply elem_of_cons in Hin; destruct Hin as [Hin|Hin];
                   [discriminate|];
                   apply elem_of_app in Hin; destruct Hin as [Hin|Hin];
                   [contradiction|];
                   apply list_elem_of_singleton in Hin; discriminate)
             eq_refl)).
  reflexivity.
Defined.

(** ** The two copies of the tool *)

(** X19. The commands of the two copies differ by the submodule flag
    alone: the current copy puts it between what the older copy runs up to
    the file and the file. *)
Theorem copies_same_command (options : GitDiffOptions) :
  let filePart :=
    if truthyString (file options) then lit " -- " ++ interpolate (file options)
    else [] in
  exists pre,
    CliCopy.diffCommand options = pre ++ filePart
    /\ diffCommand options = pre ++ lit " --ignore-submodules=all" ++ filePart.
Proof.
  unfold CliCopy.diffCommand, diffCommand. cbv zeta.
  set (c2 := if truthyFlag (wordDiff options) then _ else _).
  exists c2. destruct (truthyString (file options)).
  - split; [reflexivity|]. now rewrite <- !app_assoc.
  - now rewrite !app_nil_r.
Qed.

(** X20. For every status line the current copy prints what the older
    copy prints, and one more line when the file is untracked, which the
    older copy passes over. *)
Theorem copies_same_console (chalk : Colour -> str -> str)
    (s : Summary) (fileStatus : str) :
  console (classify chalk s fileStatus) =
    console s ++ CliCopy.classify chalk fileStatus
    ++ (if isUntracked fileStatus
        then [chalk Gray (lit "  Untracked: " ++ drop 3 fileStatus)] else []).
Proof.
  unfold classify, CliCopy.classify, isUntracked.
  change (lit "M") with [77]. change (lit "A") with [65].
  change (lit "D") with [68]. change (lit "R") with [82].
  change (lit "U") with [85].
  rewrite !includes_state.
  destruct (eqb (substring fileStatus 0 2) (lit "??")) eqn:Eu.
  - rewrite !(untracked_no_state fileStatus _ Eu) by discriminate.
    change (eqb (take 2 fileStatus) (lit "??") = true) in Eu. now rewrite Eu.
  - change (eqb (take 2 fileStatus) (lit "??") = false) in Eu. rewrite Eu.
    destruct (hasState 77 fileStatus), (hasState 65 fileStatus),
      (hasState 68 fileStatus), (hasState 82 fileStatus),
      (hasState 85 fileStatus); cbn [console]; now rewrite ?app_nil_r.
Qed.

(** ** Sections with a plain header *)

Section PlainHeaders.

Lemma space_not_dest (w : char) : isSpace w = true -> (w =? 98) = false /\ (w =? 47) = false.
Proof.
  intros H. split; apply N.eqb_neq; intros ->; discriminate.
Qed.

Lemma noTerminator_isDot (c : char) : isLineTerminator c = false -> isDot c = true.
Proof. unfold isDot. now intros ->. Qed.

Lemma endsInSpace_cons (c c1 : char) (l : str) :
  endsInSpace (c :: c1 :: l) = endsInSpace (c1 :: l).
Proof. unfold endsInSpace. now rewrite last_cons_cons. Qed.

(** What follows the first path: white space, [b/] and the second path. *)
Variables (w : char) (ws' new : str).
Hypothesis Hw : isSpace w = true.
Hypothesis Hws' : Forall (fun c => isSpace c = true) ws'.
Hypothesis Hnew : new <> [].
Hypothesis Hdot : Forall (fun c => isLineTerminator c = false) new.

Let R : str := (w :: ws') ++ lit "b/" ++ new.

Lemma destPart_none (v : str) :
  startsWith v (lit "b/") = false -> destPart (v ++ R) = None.
Proof using All.
  destruct (space_not_dest w Hw) as [Hb Hs].
  intros Hv. unfold destPart, R.
  change (lit "b/") with [98; 47] in *.
  destruct v as [|c [|c2 v]]; cbn [app stripPrefix].
  - now rewrite Hb.
  - destruct (c =? 98); [now rewrite Hs|reflexivity].
  - cbn [startsWith] in Hv.
    destruct (c =? 98); [|reflexivity].
    destruct (c2 =? 47); [|reflexivity].
    exfalso. destruct v; discriminate.
Qed.

Lemma spacesThenDest_none (v : str) :
  v <> [] -> startsWith v (lit "b/") = false ->
  spaceBeforeDest v = false -> endsInSpace v = false ->
  spacesThenDest (v ++ R) = None.
Proof using All.
  induction v as [|c v IH]; [congruence|]. intros _ Hst Hsb He.
  cbn [app spacesThenDest].
  destruct (isSpace c) eqn:Ec.
  - cbn [spaceBeforeDest] in Hsb. rewrite Ec in Hsb. cbn [andb] in Hsb.
    apply orb_false_iff in Hsb. destruct Hsb as [Hst' Hsb'].
    destruct v as [|c1 v'].
    { unfold endsInSpace in He. simpl in He. congruence. }
    rewrite endsInSpace_cons in He.
    rewrite (IH ltac:(discriminate) Hst' Hsb' He).
    change (c :: (c1 :: v') ++ R) with ((c :: c1 :: v') ++ R).
    apply destPart_none. exact Hst.
  - change (c :: v ++ R) with ((c :: v) ++ R). apply destPart_none. exact Hst.
Qed.

Lemma spaces1ThenDest_rest : spaces1ThenDest R = Some new.
Proof using All.
  unfold R. cbn [app spaces1ThenDest]. rewrite Hw.
  apply spacesThenDest_run; [exact Hws'|exact Hnew|].
  eapply Forall_impl; [|exact Hdot]. intros c. apply noTerminator_isDot.
Qed.

(** The lazy first group stops where the first path ends. *)
Lemma groups_plain (old : str) :
  old <> [] -> Forall (fun c => isLineTerminator c = false) old ->
  endsInSpace old = false -> spaceBeforeDest old = false ->
  groups (old ++ R) = Some (old, new).
Proof using All.
  induction old as [|c old IH]; [congruence|]. intros _ Hlt He Hsb.
  inversion Hlt as [|? ? Hc Hlt']; subst.
  cbn [app groups]. rewrite (noTerminator_isDot c Hc).
  cbn [spaceBeforeDest] in Hsb. apply orb_false_iff in Hsb.
  destruct Hsb as [Hst Hsb'].
  destruct old as [|c1 old'].
  - cbn [app]. now rewrite spaces1ThenDest_rest.
  - rewrite endsInSpace_cons in He.
    assert (Hnone : spaces1ThenDest ((c1 :: old') ++ R) = None).
    { cbn [app spaces1ThenDest]. destruct (isSpace c1) eqn:Ec1; [|reflexivity].
      cbn [spaceBeforeDest] in Hsb'. rewrite Ec1 in Hsb'. cbn [andb] in Hsb'.
      apply orb_false_iff in Hsb'. destruct Hsb' as [Hst1 Hsb1].
      destruct old' as [|c2 old''].
      { unfold endsInSpace in He. simpl in He. congruence. }
      rewrite endsInSpace_cons in He.
      now apply spacesThenDest_none. }
    rewrite Hnone, (IH ltac:(discriminate) Hlt' He Hsb'). reflexivity.
Qed.

End PlainHeaders.

(** The pattern reads a plain header as its two paths. *)
Lemma matchHeader_plain (old ws new : str) :
  plainHeader old ws new ->
  matchHeader (headerLine old ws new) = Some (old, new)
  /\ isFileHeader (headerLine old ws new) = true.
Proof.
  intros (Ho & Hlt & He & Hsb & Hwne & Hws & Hn & Hdot).
  split; [|reflexivity].
  destruct ws as [|w ws']; [congruence|].
  inversion Hws as [|? ? Hw Hws']; subst.
  assert (Hm : matchAt (headerLine old (w :: ws') new) = Some (old, new)).
  { unfold matchAt, headerLine. change (lit "diff --git a/") with diffGitA.
    rewrite stripPrefix_app.
    now apply groups_plain. }
  unfold headerLine in *.
  destruct (lit "diff --git a/" ++ old ++ (w :: ws') ++ lit "b/" ++ new)
    as [|c l] eqn:E; [discriminate|].
  cbn [matchHeader]. now rewrite Hm.
Qed.

Lemma effectivePath_sectionPath (old new : str) :
  effectivePath (old, new) = sectionPath old new.
Proof. reflexivity. Qed.

(** C2, as stated, fails: a header that ends in a carriage return has the
    form [a/<old> b/<new>], but the pattern does not recognise it, and its
    section is kept although the predicate holds of every path. *)
Lemma ignored_section_kept :
  let d := lit "diff --git a/x.log b/x.log" ++ [13] in
  d = headerLine (lit "x.log") (lit " ") (lit "x.log" ++ [13])
  /\ filterIgnoredFilesFromDiff (fun _ => true) d = d
  /\ sectionCount (filterIgnoredFilesFromDiff (fun _ => true) d) = 1%nat.
Proof. repeat split. Qed.

(** C2, amended. For every raw text and every ignore predicate, the
    filtered text holds no section with a plain header whose path (the
    destination, or the source when the destination is [/dev/null]) is
    ignored, and it has at most as many sections as the raw text.  A
    section whose header the pattern does not recognise is not covered:
    the one of [diff --git a/x.log b/x.log] followed by a carriage return
    is kept even when every path is ignored. *)
Theorem filter_drops_plain_ignored_sections (isPathIgnored : str -> bool) (d : str) :
  Forall (fun line =>
            forall old ws new,
              plainHeader old ws new -> line = headerLine old ws new ->
              isPathIgnored (sectionPath old new) = false)
         (split (filterIgnoredFilesFromDiff isPathIgnored d))
  /\ (sectionCount (filterIgnoredFilesFromDiff isPathIgnored d) <= sectionCount d)%nat
  /\ filterIgnoredFilesFromDiff (fun _ => true)
       (lit "diff --git a/x.log b/x.log" ++ [13])
     = lit "diff --git a/x.log b/x.log" ++ [13].
Proof.
  destruct (filter_drops_ignored_sections isPathIgnored d) as [Hn Hc].
  split; [|split; [exact Hc|reflexivity]].
  induction Hn as [|line ls Hl _ IH]; constructor; [|exact IH].
  intros old ws new Hp ->.
  destruct (matchHeader_plain old ws new Hp) as [Hm Hh].
  unfold opensIgnoredSection in Hl. rewrite Hh, Hm in Hl.
  now rewrite effectivePath_sectionPath in Hl.
Qed.

(** The section of [a.txt], kept beside the ignored one of [b.log]: its
    path is not ignored. *)
Lemma filter_drops_plain_ignored_sections_witness :
  let ignored := fun p => eqb p (lit "b.log") in
  plainHeader (lit "a.txt") (lit " ") (lit "a.txt")
  /\ ignored (sectionPath (lit "a.txt") (lit "a.txt")) = false.
Proof.
  intros ignored.
  assert (Hp : plainHeader (lit "a.txt") (lit " ") (lit "a.txt")).
  { repeat split; try discriminate; repeat constructor. }
  split; [exact Hp|].
  pose proof (proj1 (filter_drops_plain_ignored_sections ignored
    (lit "diff --git a/a.txt b/a.txt" ++ LF :: lit "+x" ++ LF ::
     lit "diff --git a/b.log b/b.log" ++ LF :: lit "-y"))) as H.
  change (split (filterIgnoredFilesFromDiff ignored
            (lit "diff --git a/a.txt b/a.txt" ++ LF :: lit "+x" ++ LF ::
             lit "diff --git a/b.log b/b.log" ++ LF :: lit "-y")))
    with [lit "diff --git a/a.txt b/a.txt"; lit "+x"] in H.
  inversion H as [|? ? Hhead _]; subst.
  apply (Hhead (lit "a.txt") (lit " ") (lit "a.txt") Hp). reflexivity.
Defined.

Lemma queriesOf_paths (isPathIgnored : str -> bool) (lines : list str) :
  queriesOf isPathIgnored lines = effectivePath <$> sectionPaths lines.
Proof.
  unfold queriesOf.
  rewrite (proj2 (filterLoop_scan isPathIgnored lines initialState)).
  apply scan_queries.
Qed.

Lemma sectionPaths_app (l1 l2 : list str) :
  sectionPaths (l1 ++ l2) = sectionPaths l1 ++ sectionPaths l2.
Proof.
  induction l1 as [|l l1 IH]; [reflexivity|].
  cbn [app]. rewrite !sectionPaths_cons, IH.
  now destruct (if isFileHeader l then matchHeader l else None).
Qed.

(** C3, as stated, fails: for the section whose header ends in a carriage
    return no path is asked about, neither its destination nor its
    source. *)
Lemma section_not_queried :
  let d := lit "diff --git a/x.log b/x.log" ++ [13] in
  d = headerLine (lit "x.log") (lit " ") (lit "x.log" ++ [13])
  /\ sectionCount d = 1%nat
  /\ ignoreQueries (fun _ => false) d = [].
Proof. repeat split. Qed.

(** C3, amended. For every section with a plain header exactly one path is
    handed to the ignore predicate, between the paths of the lines before
    and those of the lines after: the destination path, or the source path
    when the destination is the sentinel [/dev/null].  A line that does not
    start with the marker causes no query; nor does a header that the
    pattern does not recognise, such as [diff --git a/x.log b/x.log]
    followed by a carriage return. *)
Theorem filter_queries_section_path (isPathIgnored : str -> bool)
    (pre : list str) (line : str) (rest : list str) :
  (forall old ws new,
     plainHeader old ws new -> line = headerLine old ws new ->
     queriesOf isPathIgnored (pre ++ line :: rest)
     = queriesOf isPathIgnored pre
       ++ sectionPath old new :: queriesOf isPathIgnored rest)
  /\ (isFileHeader line = false ->
      queriesOf isPathIgnored (pre ++ line :: rest)
      = queriesOf isPathIgnored pre ++ queriesOf isPathIgnored rest)
  /\ (forall d, ignoreQueries isPathIgnored d = queriesOf isPathIgnored (split d))
  /\ queriesOf isPathIgnored
       (pre ++ (lit "diff --git a/x.log b/x.log" ++ [13]) :: rest)
     = queriesOf isPathIgnored pre ++ queriesOf isPathIgnored rest.
Proof.
  split; [|split; [|split]].
  - intros old ws new Hp ->.
    destruct (matchHeader_plain old ws new Hp) as [Hm Hh].
    rewrite !queriesOf_paths, sectionPaths_app, sectionPaths_cons, Hh, Hm.
    now rewrite fmap_app, fmap_cons, effectivePath_sectionPath.
  - intros Hh.
    rewrite !queriesOf_paths, sectionPaths_app, sectionPaths_cons, Hh.
    now rewrite fmap_app.
  - reflexivity.
  - rewrite !queriesOf_paths, sectionPaths_app, sectionPaths_cons.
    now rewrite fmap_app.
Qed.

(** A deleted file written with the sentinel as its destination: the
    source path is asked about. *)
Lemma filter_queries_section_path_witness :
  queriesOf (fun _ => false)
    ([lit "diff --git a/a.txt b/a.txt"; lit "+x"]
     ++ lit "diff --git a/old.txt b//dev/null" :: [lit "-y"])
  = [lit "a.txt"; lit "old.txt"].
Proof.
  rewrite (proj1 (filter_queries_section_path (fun _ => false)
             [lit "diff --git a/a.txt b/a.txt"; lit "+x"]
             (lit "diff --git a/old.txt b//dev/null") [lit "-y"])
             (lit "old.txt") (lit " ") (lit "/dev/null")
             ltac:(repeat split; try discriminate; repeat constructor)
             eq_refl).
  reflexivity.
Defined.

(** ** Texts that are no numbers *)

Section NumeralFacts.

Import Number.

Lemma trimStart_split (s : str) :
  exists ws, Forall (fun c => isSpace c = true) ws /\ s = ws ++ trimStart s.
Proof.
  induction s as [|c s (ws & Hws & Hs)].
  - exists []. split; [constructor|reflexivity].
  - simpl. destruct (isSpace c) eqn:Ec.
    + exists (c :: ws). split; [now constructor|]. simpl. now f_equal.
    + exists []. split; [constructor|reflexivity].
Qed.

Lemma stripSign_split (t : str) :
  exists sg, t = sg ++ (stripSign t).2 /\ (sg = [] \/ sg = [45] \/ sg = [43]).
Proof.
  destruct t as [|c r]; [exists []; split; [reflexivity|now left]|].
  unfold stripSign. destruct (c =? 45) eqn:E45.
  - apply N.eqb_eq in E45. subst c. exists [45]. split; [reflexivity|].
    right. now left.
  - destruct (c =? 43) eqn:E43.
    + apply N.eqb_eq in E43. subst c. exists [43]. split; [reflexivity|].
      right. now right.
    + exists []. split; [reflexivity|now left].
Qed.

Lemma stripHexPrefix_hexPrefixed (u : str) :
  stripHexPrefix u = if hexPrefixed u then (16, drop 2 u) else (10, u).
Proof.
  now destruct u as [|c [|d r]].
Qed.

Lemma radixDigit_hex (h : char) :
  radixDigit 16 h = None <-> isHexDigit h = false.
Proof.
  unfold radixDigit, digitValue, isHexDigit, isDecimalDigit.
  destruct (48 <=? h) eqn:E1, (h <=? 57) eqn:E2; cbn [andb orb];
    try (apply N.leb_le in E1); try (apply N.leb_le in E2);
    try (apply N.leb_gt in E1); try (apply N.leb_gt in E2);
    try (destruct (h - 48 <? 16) eqn:E; [|apply N.ltb_ge in E; lia];
         split; discriminate).
  all: destruct (97 <=? h) eqn:E3, (h <=? 122) eqn:E4,
         (h <=? 102) eqn:E5, (65 <=? h) eqn:E6, (h <=? 90) eqn:E7,
         (h <=? 70) eqn:E8; cbn [andb orb];
       repeat match goal with
         | H : (_ <=? _) = true |- _ => apply N.leb_le in H
         | H : (_ <=? _) = false |- _ => apply N.leb_gt in H
         end;
       try lia;
       try (destruct (h - 87 <? 16) eqn:E; [apply N.ltb_lt in E|apply N.ltb_ge in E];
            try lia; split; congruence);
       try (destruct (h - 55 <? 16) eqn:E; [apply N.ltb_lt in E|apply N.ltb_ge in E];
            try lia; split; congruence);
       split; congruence.
Qed.

Lemma radixDigit_dec (c : char) :
  radixDigit 10 c = None <-> isDecimalDigit c = false.
Proof.
  split; [|apply radixDigit_decimal].
  unfold radixDigit, digitValue, isDecimalDigit.
  destruct ((48 <=? c) && (c <=? 57)) eqn:E; [|reflexivity].
  apply andb_true_iff in E. destruct E as [E1 E2].
  apply N.leb_le in E1, E2.
  destruct (c - 48 <? 10) eqn:E; [discriminate|apply N.ltb_ge in E; lia].
Qed.

Lemma parseInt_afterSign (s : str) :
  parseInt s = afterSign (stripSign (trimStart s)).1 (stripSign (trimStart s)).2.
Proof. unfold parseInt, afterSign. now destruct (stripSign (trimStart s)). Qed.

Lemma digitsPrefix_head (R : N) (c : char) (r : str) :
  (digitsPrefix R (c :: r) = [] <-> radixDigit R c = None).
Proof.
  cbn [digitsPrefix]. destruct (radixDigit R c); split; congruence.
Qed.

(** After the sign a number is read exactly from a numeral. *)
Lemma afterSign_numeral (sign : Z) (u : str) :
  isNaN (afterSign sign u) = negb (startsNumeral u).
Proof.
  unfold afterSign, startsNumeral.
  rewrite stripHexPrefix_hexPrefixed.
  destruct (hexPrefixed u).
  - destruct (drop 2 u) as [|h r]; [reflexivity|].
    destruct (digitsPrefix 16 (h :: r)) as [|v vs] eqn:E.
    + apply digitsPrefix_head, radixDigit_hex in E. now rewrite E.
    + rewrite ofMathInt_number.
      destruct (isHexDigit h) eqn:Eh; [reflexivity|].
      apply radixDigit_hex, (digitsPrefix_head 16 h r) in Eh. congruence.
  - destruct u as [|c r]; [reflexivity|].
    destruct (digitsPrefix 10 (c :: r)) as [|v vs] eqn:E.
    + apply digitsPrefix_head, radixDigit_dec in E. now rewrite E.
    + rewrite ofMathInt_number.
      destruct (isDecimalDigit c) eqn:Ec; [reflexivity|].
      apply radixDigit_dec, (digitsPrefix_head 10 c r) in Ec. congruence.
Qed.

(** A numeral starts with a decimal digit. *)
Lemma startsNumeral_head (r : str) :
  startsNumeral r = true ->
  exists c r', r = c :: r' /\ isDecimalDigit c = true.
Proof.
  unfold startsNumeral. destruct (hexPrefixed r) eqn:Eh.
  - intros _. unfold hexPrefixed in Eh.
    destruct r as [|c [|d r']]; try discriminate.
    apply andb_true_iff in Eh. destruct Eh as [Ec _].
    apply N.eqb_eq in Ec. subst c. now exists 48, (d :: r').
  - destruct r as [|c r']; [discriminate|]. intros H. now exists c, r'.
Qed.

Lemma decimalDigit_plain (c : char) :
  isDecimalDigit c = true ->
  isSpace c = false /\ (c =? 45) = false /\ (c =? 43) = false.
Proof.
  intros H. unfold isDecimalDigit in H. apply andb_true_iff in H.
  destruct H as [H1 H2]. apply N.leb_le in H1, H2.
  assert (Hv : c - 48 < 10) by lia.
  destruct (digitChar_plain (c - 48) Hv) as (Hs & H45 & H43 & _).
  unfold digitChar in *. replace (48 + (c - 48)) with c in * by lia.
  now repeat split.
Qed.

(** [parseInt] gives [NaN] exactly for the texts without a leading
    number. *)
Lemma parseInt_NaN (s : str) :
  (~ leadingNumber s -> parseInt s = NaN)
  /\ (leadingNumber s -> isNaN (parseInt s) = false).
Proof.
  split.
  - intros Hno. rewrite parseInt_afterSign.
    destruct (trimStart_split s) as (ws & Hws & Hs).
    destruct (stripSign_split (trimStart s)) as (sg & Ht & Hsg).
    pose proof (afterSign_numeral (stripSign (trimStart s)).1
                  (stripSign (trimStart s)).2) as Hn.
    destruct (startsNumeral (stripSign (trimStart s)).2) eqn:E.
    + exfalso. apply Hno.
      exists ws, sg, (stripSign (trimStart s)).2.
      repeat split; try assumption. now rewrite <- Ht.
    + now destruct (afterSign _ _).
  - intros (ws & sg & r & -> & Hws & Hsg & Hr).
    destruct (startsNumeral_head r Hr) as (c & r' & -> & Hc).
    destruct (decimalDigit_plain c Hc) as (Hsp & H45 & H43).
    rewrite parseInt_afterSign, trimStart_spaces by exact Hws.
    assert (Hcase : exists sign,
               stripSign (trimStart (sg ++ c :: r')) = (sign, c :: r')).
    { destruct Hsg as [-> | [-> | ->]].
      - exists 1%Z. cbn [app trimStart]. rewrite Hsp.
        cbn [stripSign]. now rewrite H45, H43.
      - now exists (-1)%Z.
      - now exists 1%Z. }
    destruct Hcase as [sign ->]. cbn [fst snd].
    now rewrite afterSign_numeral, Hr.
Qed.

End NumeralFacts.

(** C9, as stated, fails: "12px" is not a number, and the context that
    the action resolves from it is 12, not the default. *)
Lemma context_non_numeric_accepted :
  let options : CommandLineOptions :=
    {| staged := None; unstaged := None; all := None; branch := None;
       commit := None; file := None; context := Some (lit "12px");
       color := Some true; wordDiff := None |} in
  (exists c, c ∈ lit "12px" /\ isDecimalDigit c = false)
  /\ context (diffAction options) = Some (Number.Int 12)
  /\ context (diffAction options) <> Some (Number.Int 3).
Proof.
  intros options. split; [|split; [reflexivity|discriminate]].
  exists 112. split; [|reflexivity].
  apply elem_of_cons. right. apply elem_of_cons. right.
  apply elem_of_cons. now left.
Qed.

(** C9, amended. A context option without a leading number (after white
    space and an optional sign there is no numeral, as in "abc", "abc1",
    "-x", "0x" or the empty text) resolves to the default 3, and so does a
    missing one: the action goes on with the context 3, it does not fail.
    Every other text, a number or not, resolves to the number that
    [parseInt] reads at its start, without a failure either: "12px"
    resolves to 12 and "7.5" to 7. *)
Theorem context_default_on_malformed (options : CommandLineOptions) (s : str) :
  (context options = Some s -> ~ leadingNumber s ->
     context (diffAction options) = Some (Number.Int 3))
  /\ (context options = Some s -> leadingNumber s ->
        context (diffAction options) = Some (Number.parseInt s)
        /\ Number.isNaN (Number.parseInt s) = false)
  /\ (context options = None ->
        context (diffAction options) = Some (Number.Int 3))
  /\ resolveContext (Some (lit "12px")) = Number.Int 12
  /\ resolveContext (Some (lit "7.5")) = Number.Int 7.
Proof.
  split; [|split; [|split; [|split; reflexivity]]].
  - intros Hc Hs. simpl. rewrite Hc. unfold resolveContext. cbn [interpolate].
    now rewrite (proj1 (parseInt_NaN s) Hs).
  - intros Hc Hs. pose proof (proj2 (parseInt_NaN s) Hs) as Hn.
    split; [|exact Hn].
    simpl. rewrite Hc. unfold resolveContext. cbn [interpolate].
    now rewrite Hn.
  - intros Hc. simpl. rewrite Hc. reflexivity.
Qed.

(** The option [--context abc]. *)
Lemma context_default_on_malformed_witness :
  let options : CommandLineOptions :=
    {| staged := None; unstaged := None; all := None; branch := None;
       commit := None; file := None; context := Some (lit "abc");
       color := Some true; wordDiff := None |} in
  context (diffAction options) = Some (Number.Int 3)
  /\ diffCommand (diffAction options)
     = lit "git diff -U3 --ignore-submodules=all".
Proof.
  intros options. split; [|reflexivity].
  apply (proj1 (context_default_on_malformed options (lit "abc"))).
  - reflexivity.
  - intros (ws & sg & r & Hs & Hws & Hsg & Hr).
    destruct ws as [|w ws].
    + destruct Hsg as [-> | [-> | ->]]; cbn [app] in Hs.
      * rewrite <- Hs in Hr. discriminate Hr.
      * inversion Hs.
      * inversion Hs.
    + inversion Hws as [|? ? Hw _]; subst. simpl in Hs.
      inversion Hs; subst. discriminate.
Defined.

(** Texts with and without a leading number. *)
Example leadingNumber_examples :
  leadingNumber (lit "  -12px") /\ leadingNumber (lit "0x1f")
  /\ ~ leadingNumber (lit "0x") /\ ~ leadingNumber (lit "").
Proof.
  split; [|split; [|split]].
  - exists (lit "  "), [45], (lit "12px"). repeat split; auto.
    repeat constructor.
  - exists [], [], (lit "0x1f"). repeat split; auto.
  - intros H. apply (proj2 (parseInt_NaN (lit "0x"))) in H. discriminate.
  - intros H. apply (proj2 (parseInt_NaN (lit ""))) in H. discriminate.
Qed.
